(** * TWAP execution algorithm (src/algos/twap/twap.cc): shallow embedding

    The development follows twap.cc function by function: [Modify],
    [OnStart], [GetLeaves] and [Timer].

    Numbers.  C++ [double] values (prices, quantities, volumes, ratios) are
    rationals [Q] with exact arithmetic: finite doubles are rationals and the
    comparisons of the source agree with the order of [Q]; rounding error and
    NaN are outside the model.  C++ [int] values (lot size, min size, max
    floor) and [time_t] values are [Z]; the integer expressions of the source
    (a truncating division followed by a multiplication by the divisor, and
    [std::max]) cannot leave the range of their operands, so no wrap-around
    arises.

    Collaborators that live outside twap.cc ([RoundPrice], libm's [exp] and
    [pow], the random engine, the internal cross) are the members of the
    class [Platform]. *)

From Stdlib Require Import ZArith QArith Qround Qminmax Bool List Lia Lqa.
From stdpp Require Import gmap strings.
Import ListNotations.

Local Open Scope Z_scope.

(** ** Comparisons on doubles *)

Definition Qltb (x y : Q) : bool := negb (Qle_bool y x).

(** ** Platform types used by twap.cc

    Modelled from the spec: the headers that declare these types (twap.h and
    the opentrade/ headers) are not part of the source tree.  Each record
    keeps the members twap.cc reads or writes, under the member's name; the
    enumerations keep the enumerators twap.cc names and, for the position
    effect, the two values of the spec (open/close). *)

Inductive OrderSide := kBuy | kSell | kShort.

Definition IsBuy (side : OrderSide) : bool :=
  match side with kBuy => true | _ => false end.

Inductive OrderType := kLimit | kMarket.

Inductive PositionEffect := kOpenPosition | kClosePosition.

Inductive Country := kCN | kOtherCountry.

Inductive SecurityType := kStock | kOtherSecurityType.

Inductive Aggression := kAggLow | kAggMedium | kAggHigh | kAggHighest.

Definition PositionEffect_eqb (a b : PositionEffect) : bool :=
  match a, b with
  | kOpenPosition, kOpenPosition | kClosePosition, kClosePosition => true
  | _, _ => false
  end.

Definition Country_eqb (a b : Country) : bool :=
  match a, b with
  | kCN, kCN | kOtherCountry, kOtherCountry => true
  | _, _ => false
  end.

Definition SecurityType_eqb (a b : SecurityType) : bool :=
  match a, b with
  | kStock, kStock | kOtherSecurityType, kOtherSecurityType => true
  | _, _ => false
  end.

Definition OrderType_eqb (a b : OrderType) : bool :=
  match a, b with
  | kLimit, kLimit | kMarket, kMarket => true
  | _, _ => false
  end.

Module Exchange.
Record t := mk { odd_lot_allowed : bool; country : Country }.
End Exchange.

Module Security.
Record t := mk { lot_size : Z; exchange : Exchange.t; type : SecurityType }.
End Security.

Module SecurityTuple.
Record t := mk {
  sec : Security.t;
  src : Z;
  acc : Z;
  side : OrderSide;
  position_effect : PositionEffect;
  qty : Q
}.
End SecurityTuple.

(** A child order as handed to the router.  A default-constructed contract
    ([Contract c;] at twap.cc:164) is a limit order with price and quantity 0:
    the switch only ever sets the type to [kMarket], and the spec gives a
    market order the price 0. *)
Module Contract.
Record t := mk {
  qty : Q;
  price : Q;
  sub_account : Z;
  side : OrderSide;
  type : OrderType;
  position_effect : PositionEffect
}.
Definition default : t := mk 0 0 0 kBuy kLimit kOpenPosition.
Definition set_price (p : Q) (c : t) : t :=
  mk (qty c) p (sub_account c) (side c) (type c) (position_effect c).
Definition set_type (ty : OrderType) (c : t) : t :=
  mk (qty c) (price c) (sub_account c) (side c) ty (position_effect c).
End Contract.

(** A working order of the instrument. *)
Module Order.
Record t := mk { id : Z; price : Q; qty : Q }.
End Order.

Module MarketData.
Record Quote := mkQuote { bid_price : Q; ask_price : Q; bid_size : Q; ask_size : Q }.
Record Trade := mkTrade { close : Q; volume : Q }.
Record t := mk { quote : Quote; trade : Trade }.
End MarketData.

(** The instrument the algo subscribed to ([inst_] points to it).  The
    framework owns and updates it; every call of the algo sees a snapshot. *)
Module Instrument.
Record t := mk {
  sec : Security.t;
  md : MarketData.t;
  active_orders : list Order.t;
  cum_qty : Q;
  cum_cx_qty : Q
}.
End Instrument.

(** Modelled from the spec: [Instrument::total_exposure] is declared outside
    twap.cc; the spec gives it as filled quantity plus the quantity of the
    currently working child orders. *)
Definition total_outstanding_qty (inst : Instrument.t) : Q :=
  fold_right (fun ord s => (Order.qty ord + s)%Q) 0%Q (Instrument.active_orders inst).

Definition total_exposure (inst : Instrument.t) : Q :=
  (Instrument.cum_qty inst + total_outstanding_qty inst)%Q.

(** ** Parameters

    Modelled from the spec: [ParamMap] and [GetParam] come from the algo
    framework: a string-keyed map of typed values and a typed
    get-with-default, whose optional flag tells whether the key was found
    with a value of the requested type. *)

Inductive ParamValue :=
| PBool (b : bool)
| PInt (i : Z)
| PDouble (d : Q)
| PString (s : string)
| PSecurity (st : SecurityTuple.t).

Abbreviation ParamMap := (gmap string ParamValue).

Definition GetParam_int (params : ParamMap) (name : string) (default_value : Z)
  : Z * bool :=
  match params !! name with
  | Some (PInt i) => (i, true)
  | _ => (default_value, false)
  end.

Definition GetParam_double (params : ParamMap) (name : string) (default_value : Q)
  : Q * bool :=
  match params !! name with
  | Some (PDouble d) => (d, true)
  | _ => (default_value, false)
  end.

Definition GetParam_string (params : ParamMap) (name : string) (default_value : string)
  : string * bool :=
  match params !! name with
  | Some (PString s) => (s, true)
  | _ => (default_value, false)
  end.

Definition GetParam_security (params : ParamMap) (name : string)
  (default_value : SecurityTuple.t) : SecurityTuple.t * bool :=
  match params !! name with
  | Some (PSecurity st) => (st, true)
  | _ => (default_value, false)
  end.

Definition kEmptyStr : string := "".

(** ** The algo object *)

Record TWAP := mkTWAP {
  st_ : SecurityTuple.t;
  initial_volume_ : Q;
  start_time_ : Z;
  end_time_ : Z;
  price_ : Q;
  min_size_ : Z;
  max_floor_ : Z;
  max_pov_ : Q;
  agg_ : Aggression;
  random_ : Q;
  tilt_ : Q;
  not_lower_than_last_px_ : bool
}.

Definition set_st_ (v : SecurityTuple.t) (a : TWAP) : TWAP :=
  mkTWAP v (initial_volume_ a) (start_time_ a) (end_time_ a) (price_ a)
    (min_size_ a) (max_floor_ a) (max_pov_ a) (agg_ a) (random_ a) (tilt_ a)
    (not_lower_than_last_px_ a).
Definition set_initial_volume_ (v : Q) (a : TWAP) : TWAP :=
  mkTWAP (st_ a) v (start_time_ a) (end_time_ a) (price_ a)
    (min_size_ a) (max_floor_ a) (max_pov_ a) (agg_ a) (random_ a) (tilt_ a)
    (not_lower_than_last_px_ a).
Definition set_start_time_ (v : Z) (a : TWAP) : TWAP :=
  mkTWAP (st_ a) (initial_volume_ a) v (end_time_ a) (price_ a)
    (min_size_ a) (max_floor_ a) (max_pov_ a) (agg_ a) (random_ a) (tilt_ a)
    (not_lower_than_last_px_ a).
Definition set_end_time_ (v : Z) (a : TWAP) : TWAP :=
  mkTWAP (st_ a) (initial_volume_ a) (start_time_ a) v (price_ a)
    (min_size_ a) (max_floor_ a) (max_pov_ a) (agg_ a) (random_ a) (tilt_ a)
    (not_lower_than_last_px_ a).
Definition set_price_ (v : Q) (a : TWAP) : TWAP :=
  mkTWAP (st_ a) (initial_volume_ a) (start_time_ a) (end_time_ a) v
    (min_size_ a) (max_floor_ a) (max_pov_ a) (agg_ a) (random_ a) (tilt_ a)
    (not_lower_than_last_px_ a).
Definition set_min_size_ (v : Z) (a : TWAP) : TWAP :=
  mkTWAP (st_ a) (initial_volume_ a) (start_time_ a) (end_time_ a) (price_ a)
    v (max_floor_ a) (max_pov_ a) (agg_ a) (random_ a) (tilt_ a)
    (not_lower_than_last_px_ a).
Definition set_max_floor_ (v : Z) (a : TWAP) : TWAP :=
  mkTWAP (st_ a) (initial_volume_ a) (start_time_ a) (end_time_ a) (price_ a)
    (min_size_ a) v (max_pov_ a) (agg_ a) (random_ a) (tilt_ a)
    (not_lower_than_last_px_ a).
Definition set_max_pov_ (v : Q) (a : TWAP) : TWAP :=
  mkTWAP (st_ a) (initial_volume_ a) (start_time_ a) (end_time_ a) (price_ a)
    (min_size_ a) (max_floor_ a) v (agg_ a) (random_ a) (tilt_ a)
    (not_lower_than_last_px_ a).
Definition set_agg_ (v : Aggression) (a : TWAP) : TWAP :=
  mkTWAP (st_ a) (initial_volume_ a) (start_time_ a) (end_time_ a) (price_ a)
    (min_size_ a) (max_floor_ a) (max_pov_ a) v (random_ a) (tilt_ a)
    (not_lower_than_last_px_ a).
Definition set_random_ (v : Q) (a : TWAP) : TWAP :=
  mkTWAP (st_ a) (initial_volume_ a) (start_time_ a) (end_time_ a) (price_ a)
    (min_size_ a) (max_floor_ a) (max_pov_ a) (agg_ a) v (tilt_ a)
    (not_lower_than_last_px_ a).
Definition set_tilt_ (v : Q) (a : TWAP) : TWAP :=
  mkTWAP (st_ a) (initial_volume_ a) (start_time_ a) (end_time_ a) (price_ a)
    (min_size_ a) (max_floor_ a) (max_pov_ a) (agg_ a) (random_ a) v
    (not_lower_than_last_px_ a).
Definition set_not_lower_than_last_px_ (v : bool) (a : TWAP) : TWAP :=
  mkTWAP (st_ a) (initial_volume_ a) (start_time_ a) (end_time_ a) (price_ a)
    (min_size_ a) (max_floor_ a) (max_pov_ a) (agg_ a) (random_ a) (tilt_ a) v.

(** ** Effects

    [Timer] and [OnStart] talk to the framework through [Stop],
    [SetTimeout], [Cancel] and [Place]; the embedding returns these calls, in
    program order, as a list of intents. *)

Inductive Action :=
| Stop
| SetTimeout (seconds : Z)
| Cancel (ord : Order.t)
| Place (c : Contract.t).

Definition is_Place (a : Action) : bool :=
  match a with Place _ => true | _ => false end.

Definition is_Cancel (a : Action) : bool :=
  match a with Cancel _ => true | _ => false end.

(** Number of [Place] calls in a list of intents. *)
Definition places (out : list Action) : nat := length (List.filter is_Place out).

(** ** Collaborators

    What twap.cc calls but does not define: [RoundPrice] rounds a price to the
    tick size of the instrument; [exp] and [pow] are libm's; [mt19937] is the
    state of the random engine and [uniform_real_distribution a b] a draw of
    [std::uniform_real_distribution<>{a, b}] from it, which returns the
    advanced engine; [Cross] is [Algo::Cross], the internal cross of the
    framework, seen through its effect on the instrument. *)
Class Platform := {
  RoundPrice : Q -> Q;
  exp : Q -> Q;
  pow : Q -> Q -> Q;
  mt19937 : Type;
  uniform_real_distribution : Q -> Q -> mt19937 -> Q * mt19937;
  Cross : Q -> Q -> OrderSide -> Z -> Instrument.t -> Instrument.t
}.

Section TWAP.

Context {P : Platform}.

Definition kRandom : mt19937 -> Q * mt19937 :=
  uniform_real_distribution (- (1 # 100))%Q (1 # 100)%Q.

(** What a call of the algo sees of the outside: the instrument behind
    [inst_] (as returned by [Subscribe] in [OnStart]), the clock, whether the
    security is in its trade period, and the state of [kRandomGen]. *)
Record World := mkWorld {
  inst : Instrument.t;
  GetTime : Z;
  IsInTradePeriod : bool;
  kRandomGen : mt19937
}.

(** *** TWAP::Modify (twap.cc:54-96)

    The source updates the object member by member; each block of it is one
    step here, and [Modify] runs the steps in the order of the source.  The
    returned string is empty on success. *)

(** Lines 56-59. *)
Definition modify_price (params : ParamMap) (this : TWAP) : TWAP :=
  let '(price, has_value) := GetParam_double params "Price" (price_ this) in
  if has_value && Qltb 0 price
  then set_price_ (RoundPrice price) this
  else set_price_ price this.

(** Lines 61-65.  Both operands of the division are [int]s, so it truncates
    and [std::round] has nothing left to round. *)
Definition modify_min_size (lot_size : Z) (params : ParamMap) (this : TWAP) : TWAP :=
  let '(min_size, has_value) := GetParam_int params "MinSize" (min_size_ this) in
  if has_value && (0 <? min_size) && (0 <? lot_size)
  then set_min_size_ (Z.quot min_size lot_size * lot_size) this
  else set_min_size_ min_size this.

(** Lines 66-71. *)
Definition modify_max_floor (lot_size : Z) (params : ParamMap) (this : TWAP) : TWAP :=
  let '(max_floor, has_value) := GetParam_int params "MaxFloor" (max_floor_ this) in
  if has_value then
    let max_floor :=
      if (0 <? max_floor) && (0 <? lot_size)
      then Z.quot max_floor lot_size * lot_size else max_floor in
    if (0 <? min_size_ this) && (max_floor <? min_size_ this)
    then set_max_floor_ 0 this else set_max_floor_ max_floor this
  else set_max_floor_ max_floor this.

(** Lines 72-73. *)
Definition modify_max_pov (params : ParamMap) (this : TWAP) : TWAP :=
  let max_pov := fst (GetParam_double params "MaxPov" (max_pov_ this)) in
  if Qltb 1 max_pov then set_max_pov_ 1%Q this else set_max_pov_ max_pov this.

(** Lines 76-85, the chain of comparisons; [None] is the [else] that
    returns the error. *)
Definition parse_aggression (agg : string) : option Aggression :=
  if String.eqb agg "Low" then Some kAggLow
  else if String.eqb agg "Medium" then Some kAggMedium
  else if String.eqb agg "High" then Some kAggHigh
  else if String.eqb agg "Highest" then Some kAggHighest
  else None.

(** Lines 74-86; [None] when [Modify] returns the error. *)
Definition modify_aggression (params : ParamMap) (this : TWAP) : option TWAP :=
  let '(agg, has_value) := GetParam_string params "Aggression" kEmptyStr in
  if has_value then
    match parse_aggression agg with
    | Some a => Some (set_agg_ a this)
    | None => None
    end
  else Some this.

(** Line 88. *)
Definition modify_random (params : ParamMap) (this : TWAP) : TWAP :=
  set_random_ (fst (GetParam_double params "Randomize" (random_ this))) this.

(** Lines 93-94. *)
Definition modify_tilt (params : ParamMap) (this : TWAP) : TWAP :=
  let '(tilt, has_value) := GetParam_double params "Tilt" (tilt_ this) in
  if has_value then set_tilt_ (exp (- tilt) / 5)%Q this else set_tilt_ tilt this.

Definition Modify (this : TWAP) (inst_ : Instrument.t) (params : ParamMap)
  : TWAP * string :=
  let this := modify_price params this in
  let lot_size := Security.lot_size (Instrument.sec inst_) in
  let this := modify_min_size lot_size params this in
  let this := modify_max_floor lot_size params this in
  let this := modify_max_pov params this in
  match modify_aggression params this with
  | None =>
      (this, "Invalid aggression, must be in (Low, Medium, High, Highest)"%string)
  | Some this =>
      let this := modify_random params this in
      let this := modify_tilt params this in
      (this, ""%string)
  end.

(** *** TWAP::OnModify (twap.cc:98-103): the error, when there is one, goes
    to the log. *)
Definition OnModify (this : TWAP) (inst_ : Instrument.t) (params : ParamMap)
  : TWAP * list string :=
  let '(this, err) := Modify this inst_ params in
  (this, if String.eqb err "" then [] else [err]).

(** *** TWAP::GetLeaves (twap.cc:138-146) *)
Definition GetLeaves (this : TWAP) (w : World) : Q * mt19937 :=
  let ratio :=
    ((inject_Z (GetTime w - start_time_ this) + 1)
     / (inject_Z (end_time_ this - start_time_ this) + 1))%Q in
  let ratio := if negb (Qeq_bool (tilt_ this) 1) then pow ratio (tilt_ this) else ratio in
  let '(ratio, gen) :=
    if negb (Qeq_bool (random_ this) 0)
    then let '(u, gen) := kRandom (kRandomGen w) in
         ((ratio + random_ this * u)%Q, gen)
    else (ratio, kRandomGen w) in
  let expect := (SecurityTuple.qty (st_ this) * ratio)%Q in
  ((expect - total_exposure (inst w))%Q, gen).

(** *** TWAP::Timer (twap.cc:148-246) *)

(** Lines 162-163. *)
Definition mid_price (bid ask : Q) : Q :=
  if Qltb bid ask && Qltb 0 bid then RoundPrice ((ask + bid) / 2)%Q else 0%Q.

(** Lines 164-204, the switch on [agg_]; [None] is the [return] of
    [kAggLow].  [high] and [highest] are the bodies of [case kAggHigh] and
    [case kAggHighest], which the cases before them fall through to. *)
Definition select_price (this : TWAP) (bid ask last_px mid_px : Q)
  : option Contract.t :=
  let c := Contract.default in
  let side := SecurityTuple.side (st_ this) in
  let highest := Some (Contract.set_type kMarket c) in
  let high :=
    if IsBuy side
    then (if Qltb 0 ask then Some (Contract.set_price ask c) else highest)
    else (if Qltb 0 bid then Some (Contract.set_price bid c) else highest) in
  match agg_ this with
  | kAggLow =>
      if IsBuy side then
        if Qltb 0 bid then Some (Contract.set_price bid c)
        else if Qltb 0 last_px then Some (Contract.set_price last_px c)
        else None
      else
        if Qltb 0 ask then Some (Contract.set_price ask c)
        else if Qltb 0 last_px then Some (Contract.set_price last_px c)
        else None
  | kAggMedium =>
      if Qltb 0 mid_px then Some (Contract.set_price mid_px c) else high
  | kAggHigh => high
  | kAggHighest => highest
  end.

(** Lines 205-209. *)
Definition limit_price (this : TWAP) (c : Contract.t) : Contract.t :=
  let side := SecurityTuple.side (st_ this) in
  if negb (OrderType_eqb (Contract.type c) kMarket) && Qltb 0 (price_ this)
     && ((IsBuy side && Qltb (price_ this) (Contract.price c))
         || (negb (IsBuy side) && Qltb (Contract.price c) (price_ this)))
  then Contract.set_price (price_ this) c else c.

(** Line 210. *)
Definition no_markdown (this : TWAP) (last_px : Q) (c : Contract.t) : Contract.t :=
  if not_lower_than_last_px_ this && Qltb (Contract.price c) last_px
  then Contract.set_price last_px c else c.

(** Lines 213-220, the body of the loop for one order. *)
Definition cancel_order (this : TWAP) (bid ask : Q) (c : Contract.t) (ord : Order.t)
  : list Action :=
  if Qle_bool (Contract.price c) 0 || Qeq_bool (Contract.price c) (Order.price ord)
  then []
  else if IsBuy (SecurityTuple.side (st_ this)) then
    if Qltb (Order.price ord) bid then [Cancel ord] else []
  else
    if Qltb 0 ask && Qltb ask (Order.price ord) then [Cancel ord] else [].

(** Lines 230-246, once [leaves] is known to be positive. *)
Definition place_order (this : TWAP) (w : World) (c : Contract.t) (leaves : Q)
  : list Action :=
  let total_leaves := (SecurityTuple.qty (st_ this) - total_exposure (inst w))%Q in
  let lot_size := Security.lot_size (Instrument.sec (inst w)) in
  let odd_ok :=
    Exchange.odd_lot_allowed (Security.exchange (Instrument.sec (inst w)))
    || (lot_size <=? 0) in
  let lot_size := if lot_size <=? 0 then Z.max 1 (min_size_ this) else lot_size in
  let max_qty :=
    if odd_ok then total_leaves
    else (inject_Z (Qfloor (total_leaves / inject_Z lot_size)) * inject_Z lot_size)%Q in
  if Qle_bool max_qty 0 then []
  else
    let would_qty :=
      (inject_Z (Qceiling (leaves / inject_Z lot_size)) * inject_Z lot_size)%Q in
    let would_qty :=
      if Qltb would_qty (inject_Z (min_size_ this))
      then inject_Z (min_size_ this) else would_qty in
    let would_qty :=
      if (0 <? max_floor_ this) && Qltb (inject_Z (max_floor_ this)) would_qty
      then inject_Z (max_floor_ this) else would_qty in
    let would_qty := if Qltb max_qty would_qty then max_qty else would_qty in
    [Place (Contract.mk would_qty (Contract.price c) (SecurityTuple.acc (st_ this))
              (SecurityTuple.side (st_ this)) (Contract.type c)
              (SecurityTuple.position_effect (st_ this)))].

(** Lines 157-210: the contract with its price and type decided; [None]
    when the switch returns. *)
Definition price_contract (this : TWAP) (w : World) : option Contract.t :=
  let md := Instrument.md (inst w) in
  let bid := MarketData.bid_price (MarketData.quote md) in
  let ask := MarketData.ask_price (MarketData.quote md) in
  let last_px := RoundPrice (MarketData.close (MarketData.trade md)) in
  let mid_px := mid_price bid ask in
  match select_price this bid ask last_px mid_px with
  | None => None
  | Some c =>
      let c := limit_price this c in
      let c := no_markdown this last_px c in
      Some c
  end.

(** Lines 224-227: the participation gate. *)
Definition over_participation (this : TWAP) (w : World) : bool :=
  let md := Instrument.md (inst w) in
  let volume := (MarketData.volume (MarketData.trade md) - initial_volume_ this)%Q in
  Qltb 0 volume && Qltb 0 (max_pov_ this)
  && Qltb (max_pov_ this * volume)
          (Instrument.cum_qty (inst w) - Instrument.cum_cx_qty (inst w)).

Definition Timer (this : TWAP) (w : World) : list Action * mt19937 :=
  let now := GetTime w in
  if end_time_ this <? now then ([Stop], kRandomGen w)
  else
    let out := [SetTimeout 1] in
    if negb (IsInTradePeriod w) then (out, kRandomGen w)
    else
      let md := Instrument.md (inst w) in
      let bid := MarketData.bid_price (MarketData.quote md) in
      let ask := MarketData.ask_price (MarketData.quote md) in
      match price_contract this w with
      | None => (out, kRandomGen w)
      | Some c =>
          match Instrument.active_orders (inst w) with
          | _ :: _ =>
              (out ++ flat_map (cancel_order this bid ask c)
                               (Instrument.active_orders (inst w)),
               kRandomGen w)
          | [] =>
              if over_participation this w then (out, kRandomGen w)
              else
                let '(leaves, gen) := GetLeaves this w in
                if Qle_bool leaves 0 then (out, gen)
                else (out ++ place_order this w c leaves, gen)
          end
      end.

(** *** TWAP::OnStart (twap.cc:24-52)

    [w] is the world at the call, with the instrument [Subscribe] returns.
    The result is the object after the call, the intents of the first tick
    with the generator state it leaves, and the error string. *)
Definition OnStart (this : TWAP) (w : World) (params : ParamMap)
  : TWAP * (list Action * mt19937) * string :=
  let this := set_st_ (fst (GetParam_security params "Security" (st_ this))) this in
  let sec := SecurityTuple.sec (st_ this) in
  let this :=
    set_not_lower_than_last_px_
      (PositionEffect_eqb (SecurityTuple.position_effect (st_ this)) kOpenPosition
       && negb (IsBuy (SecurityTuple.side (st_ this)))
       && Country_eqb kCN (Exchange.country (Security.exchange sec))
       && SecurityType_eqb kStock (Security.type sec)) this in
  let this :=
    set_initial_volume_
      (MarketData.volume (MarketData.trade (Instrument.md (inst w)))) this in
  let seconds := fst (GetParam_int params "ValidSeconds" 0) in
  if seconds <? 60
  then (this, ([], kRandomGen w), "Too short ValidSeconds, must be >= 60"%string)
  else
    let this := set_start_time_ (GetTime w) this in
    let this := set_end_time_ (start_time_ this + seconds) this in
    let '(this, err) := Modify this (inst w) params in
    if negb (String.eqb err "") then (this, ([], kRandomGen w), err)
    else if (min_size_ this <=? 0) && (Security.lot_size sec <=? 0)
    then (this, ([], kRandomGen w),
          "MinSize required for security without lot size"%string)
    else
      let w :=
        if String.eqb (fst (GetParam_string params "InternalCross" kEmptyStr)) "Yes"
        then mkWorld (Cross (SecurityTuple.qty (st_ this)) (price_ this)
                        (SecurityTuple.side (st_ this)) (SecurityTuple.acc (st_ this))
                        (inst w))
                     (GetTime w) (IsInTradePeriod w) (kRandomGen w)
        else w in
      (this, Timer this w, ""%string).

End TWAP.

(** *** TWAP::OnConfirmation (twap.cc:125-127): the algo stops once the
    instrument reports the requested quantity as filled. *)
Definition OnConfirmation (this : TWAP) (inst_ : Instrument.t) : list Action :=
  if Qle_bool (SecurityTuple.qty (st_ this)) (Instrument.cum_qty inst_)
  then [Stop] else [].

(** The literal that selects an aggression level (twap.cc:76-83). *)
Definition aggression_token (a : Aggression) : string :=
  match a with
  | kAggLow => "Low"
  | kAggMedium => "Medium"
  | kAggHigh => "High"
  | kAggHighest => "Highest"
  end.

(** The members [Modify] is not meant to reach: the request, the baseline
    volume, the window and the no-markdown rule. *)
Definition same_request (a b : TWAP) : Prop :=
  st_ a = st_ b
  /\ initial_volume_ a = initial_volume_ b
  /\ start_time_ a = start_time_ b
  /\ end_time_ a = end_time_ b
  /\ not_lower_than_last_px_ a = not_lower_than_last_px_ b.

(** The members [OnStart] and [Modify] configure. *)
Definition same_config (a b : TWAP) : Prop :=
  price_ a = price_ b
  /\ min_size_ a = min_size_ b
  /\ max_floor_ a = max_floor_ b
  /\ max_pov_ a = max_pov_ b
  /\ agg_ a = agg_ b
  /\ random_ a = random_ b
  /\ tilt_ a = tilt_ b.

(** The value a key of type double (int) is supplied with, if it is. *)
Definition supplied_double (params : ParamMap) (name : string) : option Q :=
  match params !! name with Some (PDouble d) => Some d | _ => None end.

Definition supplied_int (params : ParamMap) (name : string) : option Z :=
  match params !! name with Some (PInt i) => Some i | _ => None end.

(** ** Vocabulary of the properties *)

(** A list of intents without order action: nothing placed, nothing
    cancelled. *)
Definition no_order_action (out : list Action) : Prop :=
  forall a, In a out -> is_Place a = false /\ is_Cancel a = false.

(** The configuration invariant on min size and max floor. *)
Definition floor_below_min (this : TWAP) : Prop :=
  0 < min_size_ this /\ 0 < max_floor_ this /\ max_floor_ this < min_size_ this.

(** The order is worse than the market touch. *)
Definition worse_than_touch (side : OrderSide) (bid ask : Q) (ord : Order.t) : Prop :=
  if IsBuy side then (Order.price ord < bid)%Q
  else (0 < ask)%Q /\ (ask < Order.price ord)%Q.

(** The no-markdown rule as the specification words it: sell orders that
    open no new position, on the qualifying venue and instrument type. *)
Definition no_markdown_as_specified (st : SecurityTuple.t) : bool :=
  negb (IsBuy (SecurityTuple.side st))
  && negb (PositionEffect_eqb (SecurityTuple.position_effect st) kOpenPosition)
  && Country_eqb kCN (Exchange.country (Security.exchange (SecurityTuple.sec st)))
  && SecurityType_eqb kStock (Security.type (SecurityTuple.sec st)).

Section Specification.

Context {P : Platform}.

(** Configurations of a running instance: what a successful [OnStart] leaves,
    and what successful [Modify] calls make of it. *)
Inductive running (inst_ : Instrument.t) : TWAP -> Prop :=
| running_start this0 w params this out :
    inst w = inst_ ->
    OnStart this0 w params = (this, out, ""%string) ->
    running inst_ this
| running_modify this params this' :
    running inst_ this ->
    Modify this inst_ params = (this', ""%string) ->
    running inst_ this'.

(** *** The schedule, in the words of the specification (section 4.2) *)

Definition time_ratio (start_time end_time now : Z) : Q :=
  ((inject_Z (now - start_time) + 1) / (inject_Z (end_time - start_time) + 1))%Q.

Definition ExpectedQty_spec (requestedQty : Q) (start_time end_time : Z)
  (tilt randomize : Q) (now : Z) (gen : mt19937) : Q :=
  let r := time_ratio start_time end_time now in
  let r := if Qeq_bool tilt 1 then r else pow r tilt in
  let r :=
    if Qeq_bool randomize 0 then r
    else (r + randomize * fst (uniform_real_distribution (- (1 # 100)) (1 # 100) gen))%Q in
  (requestedQty * r)%Q.

Definition Leaves_spec (this : TWAP) (filled working : Q) (now : Z) (gen : mt19937) : Q :=
  (ExpectedQty_spec (SecurityTuple.qty (st_ this)) (start_time_ this) (end_time_ this)
     (tilt_ this) (random_ this) now gen
   - (filled + working))%Q.

(** *** The quantity throttle, in the words of the specification
    (section 4.3, steps 2 to 4); [None] when nothing is placed. *)
Definition throttle_spec (leaves totalLeaves : Q) (lot minSize maxFloor : Z)
  (exchangeAllowsOddLots : bool) : option Q :=
  let noLot := lot <=? 0 in
  let oddLotsAllowed := exchangeAllowsOddLots || noLot in
  let L := inject_Z (if noLot then Z.max 1 minSize else lot) in
  let maxQty :=
    if oddLotsAllowed then totalLeaves else (inject_Z (Qfloor (totalLeaves / L)) * L)%Q in
  if Qle_bool maxQty 0 then None
  else
    let wouldQty := (inject_Z (Qceiling (leaves / L)) * L)%Q in
    let raised := Qmax wouldQty (inject_Z minSize) in
    let floored := if maxFloor =? 0 then raised else Qmin raised (inject_Z maxFloor) in
    Some (Qmin floored maxQty).

(** The same throttle with the cap on the max floor as the code guards it
    (line 239): a max floor counts only when it is positive. *)
Definition throttle_positive_floor (leaves totalLeaves : Q) (lot minSize maxFloor : Z)
  (exchangeAllowsOddLots : bool) : option Q :=
  let noLot := lot <=? 0 in
  let oddLotsAllowed := exchangeAllowsOddLots || noLot in
  let L := inject_Z (if noLot then Z.max 1 minSize else lot) in
  let maxQty :=
    if oddLotsAllowed then totalLeaves else (inject_Z (Qfloor (totalLeaves / L)) * L)%Q in
  if Qle_bool maxQty 0 then None
  else
    let wouldQty := (inject_Z (Qceiling (leaves / L)) * L)%Q in
    let raised := Qmax wouldQty (inject_Z minSize) in
    let floored := if 0 <? maxFloor then Qmin raised (inject_Z maxFloor) else raised in
    Some (Qmin floored maxQty).

(** *** The instance with its order router

    Modelled from the spec: placing and cancelling are fire-and-forget
    intents; a placed contract becomes a working order of the instrument, and
    working orders leave the instrument only through the confirmations of the
    router (fills, cancels).  Between two calls of the algo the framework may
    change everything else of the world. *)

Record System := mkSystem { algo : TWAP; world : World }.

Definition placed (out : list Action) : list Order.t :=
  flat_map (fun a =>
    match a with
    | Place c => [Order.mk 0 (Contract.price c) (Contract.qty c)]
    | _ => []
    end) out.

Definition with_orders (orders : list Order.t) (gen : mt19937) (w : World) : World :=
  mkWorld (Instrument.mk (Instrument.sec (inst w)) (Instrument.md (inst w)) orders
             (Instrument.cum_qty (inst w)) (Instrument.cum_cx_qty (inst w)))
          (GetTime w) (IsInTradePeriod w) gen.

Definition tick (s : System) : System :=
  let '(out, gen) := Timer (algo s) (world s) in
  mkSystem (algo s)
    (with_orders (placed out ++ Instrument.active_orders (inst (world s))) gen (world s)).

Inductive step : System -> System -> Prop :=
| step_tick s : step s (tick s)
| step_modify s params :
    step s (mkSystem (fst (OnModify (algo s) (inst (world s)) params)) (world s))
| step_framework s w :
    sublist (Instrument.active_orders (inst w))
            (Instrument.active_orders (inst (world s))) ->
    step s (mkSystem (algo s) w).

(** The tick resolves to a market order: the priced contract is one, and so
    is whatever the tick places. *)
Definition yields_market (this : TWAP) (w : World) : Prop :=
  exists c,
    price_contract this w = Some c /\ Contract.type c = kMarket
    /\ forall c', In (Place c') (fst (Timer this w)) -> Contract.type c' = kMarket.

(** Best bid, best ask and rounded last price are all 0. *)
Definition no_prices (w : World) : Prop :=
  let md := Instrument.md (inst w) in
  (MarketData.bid_price (MarketData.quote md) == 0)%Q
  /\ (MarketData.ask_price (MarketData.quote md) == 0)%Q
  /\ (RoundPrice (MarketData.close (MarketData.trade md)) == 0)%Q.

(** A running instance starts without a working order. *)
Inductive reachable : System -> Prop :=
| reachable_start s :
    Instrument.active_orders (inst (world s)) = [] -> reachable s
| reachable_step s s' : reachable s -> step s s' -> reachable s'.

End Specification.

(** ** A concrete platform for worked examples

    Prices are already on the tick grid ([RoundPrice] is the identity); [exp]
    is its Taylor polynomial of degree 12, a rational approximation as the
    result of libm's is; the random engine is a counter whose draws are 0, and
    an internal cross leaves the instrument as it is.  The ticks evaluated
    below keep [tilt_] at 1 and [random_] at 0, so that neither [pow], for
    which the identity on the base stands in, nor the draw is consulted. *)
Module Sample.

(** [exp_taylor n k term x] adds the [n] terms of the series of [exp x] from
    the [k]-th one, [term], on. *)
Fixpoint exp_taylor (n : nat) (k : Z) (term x : Q) : Q :=
  match n with
  | O => 0%Q
  | S n => (term + exp_taylor n (k + 1) (term * x / inject_Z (k + 1)) x)%Q
  end.

#[global] Instance platform : Platform := {|
  RoundPrice := fun px => px;
  exp := fun x => Qred (exp_taylor 13 0 1 x);
  pow := fun x _ => x;
  mt19937 := nat;
  uniform_real_distribution := fun _ _ g => (0%Q, S g);
  Cross := fun _ _ _ _ i => i
|}.

Definition cn_exchange : Exchange.t := Exchange.mk false kCN.
Definition cn_stock : Security.t := Security.mk 100 cn_exchange kStock.

Definition buy_1000 : SecurityTuple.t :=
  SecurityTuple.mk cn_stock 1 7 kBuy kOpenPosition 1000.
Definition short_1000 : SecurityTuple.t :=
  SecurityTuple.mk cn_stock 1 7 kSell kOpenPosition 1000.

(** An algo object before its start: the members at 0, the tilt exponent at
    1 (no skew). *)
Definition fresh : TWAP :=
  mkTWAP buy_1000 0 0 0 0 0 0 0 kAggLow 0 1 false.

Definition quiet_md : MarketData.t :=
  MarketData.mk (MarketData.mkQuote 0 0 0 0) (MarketData.mkTrade 0 0).

Definition idle_inst : Instrument.t := Instrument.mk cn_stock quiet_md [] 0 0.

Definition world (i : Instrument.t) (now : Z) : World :=
  mkWorld i now true (0%nat : mt19937).

(** The object after a start at time 1000 for 60 seconds with MinSize 100,
    MaxFloor 200 and the given aggression. *)
Definition started (agg : Aggression) : TWAP :=
  mkTWAP buy_1000 0 1000 1060 0 100 200 0 agg 0 1 false.

Definition sell_close_1000 : SecurityTuple.t :=
  SecurityTuple.mk cn_stock 1 7 kSell kClosePosition 1000.

(** Bid 10.00, ask 10.20, last trade 10.10, 500 traded so far. *)
Definition quoted_md : MarketData.t :=
  MarketData.mk (MarketData.mkQuote 10 (51 # 5) 300 400) (MarketData.mkTrade (101 # 10) 500).

(** Nothing working, nothing filled. *)
Definition quoted_inst : Instrument.t := Instrument.mk cn_stock quoted_md [] 0 0.

(** Nothing working, 60 filled. *)
Definition filled_inst : Instrument.t := Instrument.mk cn_stock quoted_md [] 60 0.

(** One buy order of 100 resting at 9.90. *)
Definition resting : Order.t := Order.mk 1 (99 # 10) 100.
Definition busy_inst : Instrument.t := Instrument.mk cn_stock quoted_md [resting] 0 0.

(** The started object with a participation cap of 10%. *)
Definition capped : TWAP :=
  mkTWAP buy_1000 0 1000 1060 0 100 200 (1 # 10) kAggHigh 0 1 false.

(** A short sale at Highest, with the no-markdown rule on. *)
Definition short_sale : TWAP :=
  mkTWAP short_1000 0 1000 1060 0 100 200 0 kAggHighest 0 1 true.

(** A world outside the trade period of the security. *)
Definition closed_world (i : Instrument.t) (now : Z) : World :=
  mkWorld i now false (0%nat : mt19937).

(** Nothing working, the whole request filled. *)
Definition done_inst : Instrument.t := Instrument.mk cn_stock quoted_md [] 1000 0.

End Sample.


(** * Properties *)

(** ** Comparisons on doubles *)

Lemma Qltb_lt (x y : Q) : Qltb x y = true <-> (x < y)%Q.
Proof.
  unfold Qltb. rewrite negb_true_iff, <- not_true_iff_false, Qle_bool_iff.
  split; [apply Qnot_le_lt | apply Qlt_not_le].
Qed.

Lemma Qltb_ge (x y : Q) : Qltb x y = false <-> (y <= x)%Q.
Proof.
  unfold Qltb. rewrite negb_false_iff. apply Qle_bool_iff.
Qed.

Lemma Qeq_bool_false (x y : Q) : Qeq_bool x y = false <-> ~ (x == y)%Q.
Proof.
  rewrite <- not_true_iff_false, Qeq_bool_iff. reflexivity.
Qed.

(** Case analysis on the comparisons of the source, with their meaning on
    [Q] put among the hypotheses. *)
Ltac cmp_cases :=
  repeat match goal with
  | |- context [Qltb ?a ?b] =>
      let E := fresh "E" in
      destruct (Qltb a b) eqn:E; [apply Qltb_lt in E | apply Qltb_ge in E]
  | |- context [Qle_bool ?a ?b] =>
      let E := fresh "E" in
      destruct (Qle_bool a b) eqn:E;
      [apply Qle_bool_iff in E
      | apply not_true_iff_false in E; rewrite Qle_bool_iff in E]
  | |- context [Qeq_bool ?a ?b] =>
      let E := fresh "E" in
      destruct (Qeq_bool a b) eqn:E;
      [apply Qeq_bool_iff in E | apply Qeq_bool_false in E]
  end.

Section Properties.

Context {P : Platform}.

(** ** Shape of a tick *)

Lemma type_limit_price this c :
  Contract.type (limit_price this c) = Contract.type c.
Proof. unfold limit_price. destruct (_ && _); reflexivity. Qed.

Lemma type_no_markdown this last_px c :
  Contract.type (no_markdown this last_px c) = Contract.type c.
Proof. unfold no_markdown. destruct (_ && _); reflexivity. Qed.

Lemma limit_price_market this c :
  Contract.type c = kMarket -> limit_price this c = c.
Proof. intros H. unfold limit_price. rewrite H. reflexivity. Qed.

(** A contract that comes out of the switch is either a limit order with a
    positive price or the market order with the price field left at 0. *)
Lemma select_price_cases this bid ask last_px mid_px c :
  select_price this bid ask last_px mid_px = Some c ->
  (Contract.type c = kLimit /\ (0 < Contract.price c)%Q)
  \/ c = Contract.set_type kMarket Contract.default.
Proof.
  unfold select_price. cbv zeta.
  destruct (agg_ this), (IsBuy (SecurityTuple.side (st_ this)));
    cmp_cases; intros [= <-]; auto.
Qed.

(** What [place_order] passes to [Place]. *)
Lemma place_order_inv this w c leaves a :
  In a (place_order this w c leaves) ->
  exists q, a = Place (Contract.mk q (Contract.price c) (SecurityTuple.acc (st_ this))
                         (SecurityTuple.side (st_ this)) (Contract.type c)
                         (SecurityTuple.position_effect (st_ this))).
Proof.
  unfold place_order. destruct (Qle_bool _ 0); [intros [] |].
  intros [<- | []]. eauto.
Qed.

Lemma place_order_places this w c leaves :
  (places (place_order this w c leaves) <= 1)%nat.
Proof. unfold places, place_order. destruct (Qle_bool _ 0); simpl; lia. Qed.

Lemma cancel_order_inv this bid ask c ord a :
  In a (cancel_order this bid ask c ord) -> a = Cancel ord.
Proof.
  unfold cancel_order.
  destruct (_ || _); [intros [] |].
  destruct (IsBuy _); [destruct (Qltb _ _) | destruct (_ && _)];
    simpl; intuition.
Qed.

Lemma cancel_orders_places this bid ask c orders :
  places (flat_map (cancel_order this bid ask c) orders) = 0%nat.
Proof.
  unfold places. apply length_zero_iff_nil.
  induction orders as [| ord orders IH]; [reflexivity |].
  simpl. rewrite List.filter_app, IH, app_nil_r.
  destruct (List.filter is_Place (cancel_order this bid ask c ord)) as [| a l] eqn:E;
    [reflexivity |].
  assert (Ha : In a (List.filter is_Place (cancel_order this bid ask c ord)))
    by (rewrite E; left; reflexivity).
  apply List.filter_In in Ha as [Ha Hp].
  apply cancel_order_inv in Ha. subst a. discriminate.
Qed.

(** A tick that does not price a contract takes no order action. *)
Lemma Timer_unpriced this w :
  price_contract this w = None -> no_order_action (fst (Timer this w)).
Proof.
  intros H a. unfold Timer. rewrite H.
  destruct (_ <? _); [| destruct (negb _)]; simpl; intuition; subst; auto.
Qed.

(** The contract a tick places is the priced contract, completed with the
    quantity and the fields of the request. *)
Lemma Timer_Place_inv this w c' :
  In (Place c') (fst (Timer this w)) ->
  exists c q,
    price_contract this w = Some c
    /\ Instrument.active_orders (inst w) = []
    /\ c' = Contract.mk q (Contract.price c) (SecurityTuple.acc (st_ this))
              (SecurityTuple.side (st_ this)) (Contract.type c)
              (SecurityTuple.position_effect (st_ this)).
Proof.
  unfold Timer.
  destruct (_ <? _); [simpl; intuition discriminate |].
  destruct (negb _); [simpl; intuition discriminate |].
  destruct (price_contract this w) as [c |]; [| simpl; intuition discriminate].
  destruct (Instrument.active_orders (inst w)) as [| o os] eqn:Eo.
  - destruct (over_participation this w); [simpl; intuition discriminate |].
    destruct (GetLeaves this w) as [leaves gen].
    destruct (Qle_bool leaves 0); [simpl; intuition discriminate |].
    simpl. intros [H | H]; [discriminate |].
    apply place_order_inv in H as [q [= ->]]. eauto.
  - cbn [fst app In]. intros [H | H]; [discriminate |].
    apply in_flat_map in H as [ord [_ H]].
    apply cancel_order_inv in H. discriminate.
Qed.

(** ** C1: the fallback chain without prices *)

Lemma price_contract_market this w c0 :
  let md := Instrument.md (inst w) in
  let bid := MarketData.bid_price (MarketData.quote md) in
  let ask := MarketData.ask_price (MarketData.quote md) in
  let last_px := RoundPrice (MarketData.close (MarketData.trade md)) in
  select_price this bid ask last_px (mid_price bid ask) = Some c0 ->
  Contract.type c0 = kMarket ->
  yields_market this w.
Proof.
  intros md bid ask last_px Hsel Hty.
  exists (no_markdown this last_px (limit_price this c0)).
  assert (Hp : price_contract this w
               = Some (no_markdown this last_px (limit_price this c0)))
    by (unfold price_contract; fold md bid ask last_px; rewrite Hsel; reflexivity).
  split; [exact Hp |].
  split; [rewrite type_no_markdown, type_limit_price; exact Hty |].
  intros c' Hin. apply Timer_Place_inv in Hin as (c & q & Hc & _ & ->).
  rewrite Hp in Hc. injection Hc as <-. simpl.
  rewrite type_no_markdown, type_limit_price. exact Hty.
Qed.

(** C1 (as amended).  Highest resolves to a market order on every tick.  On
    a tick evaluated with best bid = 0, best ask = 0 and rounded last
    price = 0, Low abstains (the tick prices no contract and takes no order
    action), while Medium and High fall through to Highest and resolve to a
    market order as well. *)
Theorem C1_fallback_without_prices this w :
  (agg_ this = kAggHighest -> yields_market this w)
  /\ (no_prices w ->
      match agg_ this with
      | kAggLow =>
          price_contract this w = None /\ no_order_action (fst (Timer this w))
      | _ => yields_market this w
      end).
Proof.
  split.
  - intros Hagg.
    apply price_contract_market with (c0 := Contract.set_type kMarket Contract.default);
      [| reflexivity].
    unfold select_price. rewrite Hagg. reflexivity.
  - intros (Hbid & Hask & Hlast).
    assert (Hmid : mid_price (MarketData.bid_price (MarketData.quote (Instrument.md (inst w))))
                     (MarketData.ask_price (MarketData.quote (Instrument.md (inst w))))
                   = 0%Q).
    { unfold mid_price. cmp_cases; try reflexivity. lra. }
    destruct (agg_ this) eqn:Hagg.
    + assert (Hnone : price_contract this w = None).
      { unfold price_contract, select_price. cbv zeta. rewrite Hagg.
        destruct (IsBuy _); cmp_cases; try reflexivity; lra. }
      split; [exact Hnone | apply Timer_unpriced; exact Hnone].
    + apply price_contract_market with (c0 := Contract.set_type kMarket Contract.default);
        [| reflexivity].
      rewrite Hmid. unfold select_price. cbv zeta. rewrite Hagg.
      destruct (IsBuy _); cmp_cases; try reflexivity; lra.
    + apply price_contract_market with (c0 := Contract.set_type kMarket Contract.default);
        [| reflexivity].
      unfold select_price. cbv zeta. rewrite Hagg.
      destruct (IsBuy _); cmp_cases; try reflexivity; lra.
    + apply price_contract_market with (c0 := Contract.set_type kMarket Contract.default);
        [| reflexivity].
      unfold select_price. rewrite Hagg. reflexivity.
Qed.


(** ** C2: a failed Modify *)

Lemma GetParam_double_delete (params : ParamMap) k name d :
  k <> name -> GetParam_double (delete k params) name d = GetParam_double params name d.
Proof. intros H. unfold GetParam_double. rewrite lookup_delete_ne by exact H. reflexivity. Qed.

Lemma GetParam_int_delete (params : ParamMap) k name d :
  k <> name -> GetParam_int (delete k params) name d = GetParam_int params name d.
Proof. intros H. unfold GetParam_int. rewrite lookup_delete_ne by exact H. reflexivity. Qed.

Lemma GetParam_string_delete_eq (params : ParamMap) name d :
  GetParam_string (delete name params) name d = (d, false).
Proof. unfold GetParam_string. rewrite lookup_delete_eq. reflexivity. Qed.

Lemma GetParam_string_found (params : ParamMap) name d s :
  GetParam_string params name d = (s, true) -> params !! name = Some (PString s).
Proof.
  unfold GetParam_string.
  destruct (params !! name) as [[] |]; intros [= <-]; reflexivity.
Qed.

(** The members a step of [Modify] leaves alone. *)
Ltac frame :=
  intros;
  repeat match goal with
         | |- context [let '(_, _) := ?g in _] => destruct g as [? ?]
         | |- context [if ?b then _ else _] => destruct b
         end; repeat split; reflexivity.

Lemma modify_price_frame params this :
  let this' := modify_price params this in
  min_size_ this' = min_size_ this /\ max_floor_ this' = max_floor_ this
  /\ max_pov_ this' = max_pov_ this /\ agg_ this' = agg_ this
  /\ random_ this' = random_ this /\ tilt_ this' = tilt_ this.
Proof. unfold modify_price. frame. Qed.

Lemma modify_min_size_frame lot params this :
  let this' := modify_min_size lot params this in
  price_ this' = price_ this /\ max_floor_ this' = max_floor_ this
  /\ max_pov_ this' = max_pov_ this /\ agg_ this' = agg_ this
  /\ random_ this' = random_ this /\ tilt_ this' = tilt_ this.
Proof. unfold modify_min_size. frame. Qed.

Lemma modify_max_floor_frame lot params this :
  let this' := modify_max_floor lot params this in
  price_ this' = price_ this /\ min_size_ this' = min_size_ this
  /\ max_pov_ this' = max_pov_ this /\ agg_ this' = agg_ this
  /\ random_ this' = random_ this /\ tilt_ this' = tilt_ this.
Proof. unfold modify_max_floor. frame. Qed.

Lemma modify_max_pov_frame params this :
  let this' := modify_max_pov params this in
  price_ this' = price_ this /\ min_size_ this' = min_size_ this
  /\ max_floor_ this' = max_floor_ this /\ agg_ this' = agg_ this
  /\ random_ this' = random_ this /\ tilt_ this' = tilt_ this.
Proof. unfold modify_max_pov. frame. Qed.

Lemma modify_aggression_frame params this this' :
  modify_aggression params this = Some this' ->
  price_ this' = price_ this /\ min_size_ this' = min_size_ this
  /\ max_floor_ this' = max_floor_ this /\ max_pov_ this' = max_pov_ this
  /\ random_ this' = random_ this /\ tilt_ this' = tilt_ this.
Proof.
  unfold modify_aggression.
  destruct (GetParam_string _ _ _) as [agg []];
    [destruct (parse_aggression agg) |]; intros [= <-]; repeat split.
Qed.

Lemma modify_tail_frame params this :
  let this' := modify_tilt params (modify_random params this) in
  price_ this' = price_ this /\ min_size_ this' = min_size_ this
  /\ max_floor_ this' = max_floor_ this /\ max_pov_ this' = max_pov_ this
  /\ agg_ this' = agg_ this.
Proof. unfold modify_tilt, modify_random. frame. Qed.

(** The first four steps do not look at the Aggression key. *)
Lemma modify_sizes_delete_Aggression lot params this :
  let params' := delete "Aggression"%string params in
  modify_max_pov params'
    (modify_max_floor lot params' (modify_min_size lot params' (modify_price params' this)))
  = modify_max_pov params
      (modify_max_floor lot params (modify_min_size lot params (modify_price params this))).
Proof.
  unfold modify_max_pov, modify_max_floor, modify_min_size, modify_price.
  cbv zeta.
  rewrite !GetParam_double_delete, !GetParam_int_delete by discriminate.
  reflexivity.
Qed.

(** [Modify] fails exactly when the Aggression key holds a string that is
    none of the four tokens. *)
Lemma modify_aggression_None params this :
  modify_aggression params this = None <->
  exists agg,
    params !! "Aggression" = Some (PString agg) /\ parse_aggression agg = None.
Proof.
  unfold modify_aggression, GetParam_string. split.
  - destruct (params !! "Aggression") as [[| | | s |] |]; try discriminate.
    destruct (parse_aggression s) eqn:E; [discriminate | eauto].
  - intros (agg & -> & ->). reflexivity.
Qed.

Lemma Modify_error this inst_ params :
  snd (Modify this inst_ params) <> ""%string ->
  modify_aggression params
    (modify_max_pov params
      (modify_max_floor (Security.lot_size (Instrument.sec inst_)) params
        (modify_min_size (Security.lot_size (Instrument.sec inst_)) params
          (modify_price params this)))) = None.
Proof.
  unfold Modify. cbv zeta.
  destruct (modify_aggression _ _); [simpl; congruence | reflexivity].
Qed.

(** C2 (as amended).  A [Modify] call fails only on an unrecognized
    Aggression token.  The failed call reports a descriptive error and leaves
    aggression, randomize and tilt unchanged; price, min size, max floor and
    max participation are not rolled back: they are what the same call
    without the Aggression key, which succeeds, sets them to. *)
Theorem C2_failed_modify this inst_ params :
  snd (Modify this inst_ params) <> ""%string ->
  let failed := fst (Modify this inst_ params) in
  let accepted := Modify this inst_ (delete "Aggression"%string params) in
  (exists agg,
     params !! "Aggression" = Some (PString agg) /\ parse_aggression agg = None)
  /\ snd (OnModify this inst_ params)
     = ["Invalid aggression, must be in (Low, Medium, High, Highest)"%string]
  /\ agg_ failed = agg_ this
  /\ random_ failed = random_ this
  /\ tilt_ failed = tilt_ this
  /\ snd accepted = ""%string
  /\ price_ failed = price_ (fst accepted)
  /\ min_size_ failed = min_size_ (fst accepted)
  /\ max_floor_ failed = max_floor_ (fst accepted)
  /\ max_pov_ failed = max_pov_ (fst accepted).
Proof.
  intros Herr. apply Modify_error in Herr.
  set (lot := Security.lot_size (Instrument.sec inst_)) in *.
  intros failed accepted. subst failed accepted.
  unfold OnModify, Modify. cbv zeta. fold lot.
  rewrite modify_sizes_delete_Aggression, Herr.
  split; [exact (proj1 (modify_aggression_None _ _) Herr) |].
  split; [reflexivity |].
  set (sized := modify_max_pov params _) in *.
  assert (Hacc : modify_aggression (delete "Aggression"%string params) sized = Some sized).
  { unfold modify_aggression. rewrite GetParam_string_delete_eq. reflexivity. }
  rewrite Hacc. cbn [fst snd].
  destruct (modify_tail_frame (delete "Aggression"%string params) sized)
    as (-> & -> & -> & -> & _).
  subst sized.
  destruct (modify_max_pov_frame params
              (modify_max_floor lot params (modify_min_size lot params
                 (modify_price params this)))) as (_ & _ & _ & -> & -> & ->).
  destruct (modify_max_floor_frame lot params
              (modify_min_size lot params (modify_price params this)))
    as (_ & _ & _ & -> & -> & ->).
  destruct (modify_min_size_frame lot params (modify_price params this))
    as (_ & _ & _ & -> & -> & ->).
  destruct (modify_price_frame params this) as (_ & _ & _ & -> & -> & ->).
  repeat split; reflexivity.
Qed.

(** ** C3: min size and max floor *)

Lemma GetParam_int_found (params : ParamMap) name d v :
  params !! name = Some (PInt v) -> GetParam_int params name d = (v, true).
Proof. intros H. unfold GetParam_int. rewrite H. reflexivity. Qed.

(** The block that enforces the invariant (line 70) runs only when MaxFloor
    is supplied. *)
Lemma modify_max_floor_supplied lot params this v :
  params !! "MaxFloor" = Some (PInt v) ->
  ~ floor_below_min (modify_max_floor lot params this).
Proof.
  intros Hv. unfold floor_below_min, modify_max_floor.
  rewrite (GetParam_int_found _ _ _ _ Hv).
  destruct (_ && _) eqn:E1; destruct (_ && _) eqn:E2; cbn; lia.
Qed.

(** A [Modify] that supplies MaxFloor leaves no positive max floor below a
    positive min size, whether it succeeds or not. *)
Lemma Modify_MaxFloor_supplied this inst_ params v :
  params !! "MaxFloor" = Some (PInt v) ->
  ~ floor_below_min (fst (Modify this inst_ params)).
Proof.
  intros Hv. unfold Modify. cbv zeta.
  set (lot := Security.lot_size (Instrument.sec inst_)).
  set (floored := modify_max_floor lot params _).
  assert (Hf : ~ floor_below_min floored) by (apply modify_max_floor_supplied with v, Hv).
  assert (Hp : min_size_ (modify_max_pov params floored) = min_size_ floored
               /\ max_floor_ (modify_max_pov params floored) = max_floor_ floored)
    by (destruct (modify_max_pov_frame params floored) as (_ & ? & ? & _); auto).
  destruct Hp as [Hp1 Hp2].
  destruct (modify_aggression params _) as [this' |] eqn:Ea; cbn [fst].
  - apply modify_aggression_frame in Ea as (_ & Ha1 & Ha2 & _).
    destruct (modify_tail_frame params this') as (_ & Ht1 & Ht2 & _).
    unfold floor_below_min in *. rewrite Ht1, Ht2, Ha1, Ha2, Hp1, Hp2. exact Hf.
  - unfold floor_below_min in *. rewrite Hp1, Hp2. exact Hf.
Qed.

(** ** C4: the no-markdown rule *)

(** [Modify] touches neither the request nor the rule. *)
Lemma Modify_request this inst_ params :
  st_ (fst (Modify this inst_ params)) = st_ this
  /\ not_lower_than_last_px_ (fst (Modify this inst_ params))
     = not_lower_than_last_px_ this.
Proof.
  assert (H1 : forall t, st_ (modify_price params t) = st_ t
               /\ not_lower_than_last_px_ (modify_price params t)
                  = not_lower_than_last_px_ t)
    by (unfold modify_price; frame).
  assert (H2 : forall lot t, st_ (modify_min_size lot params t) = st_ t
               /\ not_lower_than_last_px_ (modify_min_size lot params t)
                  = not_lower_than_last_px_ t)
    by (unfold modify_min_size; frame).
  assert (H3 : forall lot t, st_ (modify_max_floor lot params t) = st_ t
               /\ not_lower_than_last_px_ (modify_max_floor lot params t)
                  = not_lower_than_last_px_ t)
    by (unfold modify_max_floor; frame).
  assert (H4 : forall t, st_ (modify_max_pov params t) = st_ t
               /\ not_lower_than_last_px_ (modify_max_pov params t)
                  = not_lower_than_last_px_ t)
    by (unfold modify_max_pov; frame).
  assert (H5 : forall t t', modify_aggression params t = Some t' ->
               st_ t' = st_ t
               /\ not_lower_than_last_px_ t' = not_lower_than_last_px_ t).
  { unfold modify_aggression. intros t t'.
    destruct (GetParam_string _ _ _) as [agg []];
      [destruct (parse_aggression agg) |]; intros [= <-]; split; reflexivity. }
  assert (H6 : forall t, st_ (modify_tilt params (modify_random params t)) = st_ t
               /\ not_lower_than_last_px_ (modify_tilt params (modify_random params t))
                  = not_lower_than_last_px_ t)
    by (unfold modify_tilt, modify_random; frame).
  unfold Modify. cbv zeta.
  set (lot := Security.lot_size (Instrument.sec inst_)).
  destruct (modify_aggression params _) as [t' |] eqn:Ea; cbn [fst].
  - apply H5 in Ea as [Ea1 Ea2].
    destruct (H6 t') as [-> ->]. rewrite Ea1, Ea2.
    destruct (H4 (modify_max_floor lot params
                    (modify_min_size lot params (modify_price params this)))) as [-> ->].
    destruct (H3 lot (modify_min_size lot params (modify_price params this))) as [-> ->].
    destruct (H2 lot (modify_price params this)) as [-> ->].
    apply H1.
  - destruct (H4 (modify_max_floor lot params
                    (modify_min_size lot params (modify_price params this)))) as [-> ->].
    destruct (H3 lot (modify_min_size lot params (modify_price params this))) as [-> ->].
    destruct (H2 lot (modify_price params this)) as [-> ->].
    apply H1.
Qed.

(** What [OnStart] makes of the request and of the rule, whatever its
    outcome. *)
Lemma OnStart_request this w params :
  let started := fst (fst (OnStart this w params)) in
  st_ started = fst (GetParam_security params "Security" (st_ this))
  /\ not_lower_than_last_px_ started
     = PositionEffect_eqb (SecurityTuple.position_effect (st_ started)) kOpenPosition
       && negb (IsBuy (SecurityTuple.side (st_ started)))
       && Country_eqb kCN
            (Exchange.country (Security.exchange (SecurityTuple.sec (st_ started))))
       && SecurityType_eqb kStock (Security.type (SecurityTuple.sec (st_ started))).
Proof.
  unfold OnStart. cbv zeta.
  destruct (_ <? 60); [cbn; auto |].
  match goal with
  | |- context [Modify ?X (inst w) params] =>
      destruct (Modify_request X (inst w) params) as [Hst Hnl];
      destruct (Modify X (inst w) params) as [t err]
  end.
  cbn in Hst, Hnl.
  destruct (negb (String.eqb err "")); [| destruct ((min_size_ t <=? 0) && _)];
    cbn [fst];
    (split; [exact Hst | rewrite Hnl, Hst; reflexivity]).
Qed.

Lemma PositionEffect_eqb_eq a b : PositionEffect_eqb a b = true <-> a = b.
Proof. destruct a, b; simpl; split; congruence. Qed.

Lemma Country_eqb_eq a b : Country_eqb a b = true <-> a = b.
Proof. destruct a, b; simpl; split; congruence. Qed.

Lemma SecurityType_eqb_eq a b : SecurityType_eqb a b = true <-> a = b.
Proof. destruct a, b; simpl; split; congruence. Qed.

(** With the rule on, no priced contract is below the rounded last price. *)
Lemma price_contract_not_lower this w c :
  price_contract this w = Some c ->
  not_lower_than_last_px_ this = true ->
  (RoundPrice (MarketData.close (MarketData.trade (Instrument.md (inst w))))
   <= Contract.price c)%Q.
Proof.
  unfold price_contract. cbv zeta.
  destruct (select_price _ _ _ _ _) as [c0 |]; [| discriminate].
  intros [= <-] Hon. unfold no_markdown. rewrite Hon. cbn [andb].
  cmp_cases; cbn; lra.
Qed.

(** C4 (as amended).  [OnStart] turns the no-markdown rule on exactly for
    orders that are not buys, whose position effect is open (they open a new
    position), on an exchange of country CN, for a security of type stock;
    [Modify] never changes it.  Whenever the rule is on and the chosen price
    is below the rounded last price, the price is raised to the last price,
    so that no priced contract is below it. *)
Theorem C4_no_markdown_rule this w params :
  let started := fst (fst (OnStart this w params)) in
  let st := st_ started in
  (not_lower_than_last_px_ started = true <->
     IsBuy (SecurityTuple.side st) = false
     /\ SecurityTuple.position_effect st = kOpenPosition
     /\ Exchange.country (Security.exchange (SecurityTuple.sec st)) = kCN
     /\ Security.type (SecurityTuple.sec st) = kStock)
  /\ (forall inst_ params',
        not_lower_than_last_px_ (fst (Modify started inst_ params'))
        = not_lower_than_last_px_ started)
  /\ (forall t last_px c0,
        not_lower_than_last_px_ t = true ->
        (Contract.price c0 < last_px)%Q ->
        no_markdown t last_px c0 = Contract.set_price last_px c0)
  /\ (forall t w' c,
        not_lower_than_last_px_ t = true ->
        price_contract t w' = Some c ->
        (RoundPrice (MarketData.close (MarketData.trade (Instrument.md (inst w'))))
         <= Contract.price c)%Q).
Proof.
  intros started st.
  destruct (OnStart_request this w params) as [_ Hnl].
  fold started in Hnl. fold st in Hnl.
  split; [| split; [| split]].
  - rewrite Hnl, !andb_true_iff, negb_true_iff, PositionEffect_eqb_eq,
      Country_eqb_eq, SecurityType_eqb_eq.
    intuition congruence.
  - intros inst_ params'. apply Modify_request.
  - intros t last_px c0 Hon Hlt. unfold no_markdown. rewrite Hon.
    apply Qltb_lt in Hlt. rewrite Hlt. reflexivity.
  - intros t w' c Hon Hc. apply price_contract_not_lower with t; assumption.
Qed.

(** ** C10: market orders, the limit and the no-markdown rule *)

(** C10.  On a tick whose aggression chain resolves to a market order, the
    clamp to the configured limit price is skipped, whatever the limit, and
    the no-markdown adjustment is not: the priced contract is a market order
    whose price field is the rounded last price when the rule is on and that
    price is positive, and stays 0 otherwise; the contract the tick places,
    if any, carries that type and that price. *)
Theorem C10_market_order_no_markdown this w c0 :
  let md := Instrument.md (inst w) in
  let bid := MarketData.bid_price (MarketData.quote md) in
  let ask := MarketData.ask_price (MarketData.quote md) in
  let last_px := RoundPrice (MarketData.close (MarketData.trade md)) in
  select_price this bid ask last_px (mid_price bid ask) = Some c0 ->
  Contract.type c0 = kMarket ->
  limit_price this c0 = c0
  /\ exists c,
       price_contract this w = Some c
       /\ Contract.type c = kMarket
       /\ Contract.price c
          = (if not_lower_than_last_px_ this && Qltb 0 last_px then last_px else 0%Q)
       /\ forall c',
            In (Place c') (fst (Timer this w)) ->
            Contract.type c' = kMarket /\ Contract.price c' = Contract.price c.
Proof.
  intros md bid ask last_px Hsel Hty.
  assert (Hc0 : c0 = Contract.set_type kMarket Contract.default).
  { destruct (select_price_cases _ _ _ _ _ _ Hsel) as [[Hl _] | H];
      [congruence | exact H]. }
  assert (Hlim : limit_price this c0 = c0) by (apply limit_price_market, Hty).
  split; [exact Hlim |].
  exists (no_markdown this last_px c0).
  assert (Hp : price_contract this w = Some (no_markdown this last_px c0)).
  { unfold price_contract. fold md bid ask last_px. rewrite Hsel. cbv zeta.
    rewrite Hlim. reflexivity. }
  split; [exact Hp |].
  split; [rewrite type_no_markdown; exact Hty |].
  split.
  - unfold no_markdown. rewrite Hc0. cbn [Contract.price Contract.set_type Contract.default].
    destruct (_ && _); reflexivity.
  - intros c' Hin. apply Timer_Place_inv in Hin as (c & q & Hc & _ & ->).
    rewrite Hp in Hc. injection Hc as <-. cbn [Contract.type Contract.price].
    split; [rewrite type_no_markdown; exact Hty | reflexivity].
Qed.

(** ** C5: the schedule *)

Lemma GetParam_double_found (params : ParamMap) name d v :
  params !! name = Some (PDouble v) -> GetParam_double params name d = (v, true).
Proof. intros H. unfold GetParam_double. rewrite H. reflexivity. Qed.

(** Inside the window the normalized time lies in (0, 1]. *)
Lemma time_ratio_bounds start_time end_time now :
  start_time <= now <= end_time ->
  (0 < time_ratio start_time end_time now <= 1)%Q
  /\ (time_ratio start_time end_time now
      == inject_Z (now - start_time + 1) / inject_Z (end_time - start_time + 1))%Q.
Proof.
  intros [Hs He]. unfold time_ratio.
  assert (Hn : (0 <= inject_Z (now - start_time))%Q)
    by (rewrite <- (Zle_Qle 0); lia).
  assert (Hd : (inject_Z (now - start_time) <= inject_Z (end_time - start_time))%Q)
    by (rewrite <- Zle_Qle; lia).
  split; [split |].
  - apply Qlt_shift_div_l; lra.
  - apply Qle_shift_div_r; lra.
  - rewrite !inject_Z_plus. reflexivity.
Qed.

(** C5.  [GetLeaves] is the schedule of the specification: with
    r = (now - start + 1) / (end - start + 1), which lies in (0, 1] inside
    the window, replaced by r^tilt when tilt <> 1 and increased by randomize
    times a draw of the uniform distribution on (-0.01, 0.01) when
    randomize <> 0, the expected quantity is requestedQty * r and the leaves
    are the expected quantity minus the total exposure, filled plus working
    quantity.  Every invocation with randomize <> 0 takes one fresh draw and
    advances the engine.  A [Modify] that supplies Tilt as x sets the tilt
    exponent to exp(-x)/5. *)
Theorem C5_schedule this w :
  start_time_ this <= GetTime w <= end_time_ this ->
  let now := GetTime w in
  let r := time_ratio (start_time_ this) (end_time_ this) now in
  ((0 < r <= 1)%Q
   /\ (r == inject_Z (now - start_time_ this + 1)
            / inject_Z (end_time_ this - start_time_ this + 1))%Q)
  /\ fst (GetLeaves this w)
     = Leaves_spec this (Instrument.cum_qty (inst w)) (total_outstanding_qty (inst w))
         now (kRandomGen w)
  /\ snd (GetLeaves this w)
     = (if Qeq_bool (random_ this) 0 then kRandomGen w
        else snd (uniform_real_distribution (- (1 # 100)) (1 # 100) (kRandomGen w)))
  /\ total_exposure (inst w)
     = (Instrument.cum_qty (inst w) + total_outstanding_qty (inst w))%Q
  /\ forall inst_ params x,
       params !! "Tilt" = Some (PDouble x) ->
       snd (Modify this inst_ params) = ""%string ->
       tilt_ (fst (Modify this inst_ params)) = (exp (- x) / 5)%Q.
Proof.
  intros Hwin now r.
  split; [apply time_ratio_bounds, Hwin |].
  split; [| split; [| split]].
  - unfold GetLeaves, Leaves_spec, ExpectedQty_spec, kRandom, total_exposure.
    fold now. unfold r, time_ratio.
    destruct (Qeq_bool (tilt_ this) 1), (Qeq_bool (random_ this) 0); cbn [negb];
      try reflexivity;
      destruct (uniform_real_distribution _ _ _); reflexivity.
  - unfold GetLeaves, kRandom.
    destruct (Qeq_bool (random_ this) 0); cbn [negb]; [reflexivity |].
    destruct (uniform_real_distribution _ _ _); reflexivity.
  - reflexivity.
  - intros inst_ params x Hx. unfold Modify. cbv zeta.
    destruct (modify_aggression params _) as [t |]; [| discriminate].
    intros _. cbn [fst]. unfold modify_tilt.
    rewrite (GetParam_double_found _ _ _ _ Hx). reflexivity.
Qed.

(** ** C6: the quantity throttle *)

Lemma Qmax_if a b : Qmax a b = if Qltb a b then b else a.
Proof.
  unfold Qmax, GenericMinMax.gmax.
  destruct (Qltb a b) eqn:E; [apply Qltb_lt in E | apply Qltb_ge in E];
    destruct (Qcompare_spec a b); try reflexivity; lra.
Qed.

Lemma Qmin_if a b : Qmin a b = if Qltb b a then b else a.
Proof.
  unfold Qmin, GenericMinMax.gmin.
  destruct (Qltb b a) eqn:E; [apply Qltb_lt in E | apply Qltb_ge in E];
    destruct (Qcompare_spec a b); try reflexivity; lra.
Qed.

(** Lines 230-246 against the throttle with the positive-floor guard. *)
Lemma place_order_throttle this w c leaves :
  place_order this w c leaves
  = match throttle_positive_floor leaves
            (SecurityTuple.qty (st_ this) - total_exposure (inst w))
            (Security.lot_size (Instrument.sec (inst w)))
            (min_size_ this) (max_floor_ this)
            (Exchange.odd_lot_allowed (Security.exchange (Instrument.sec (inst w))))
    with
    | None => []
    | Some q =>
        [Place (Contract.mk q (Contract.price c) (SecurityTuple.acc (st_ this))
                  (SecurityTuple.side (st_ this)) (Contract.type c)
                  (SecurityTuple.position_effect (st_ this)))]
    end.
Proof.
  unfold place_order, throttle_positive_floor. cbv zeta.
  destruct (Qle_bool _ 0); [reflexivity |].
  rewrite Qmin_if, Qmax_if.
  destruct (0 <? max_floor_ this); cbn [andb]; [rewrite Qmin_if |]; reflexivity.
Qed.

(** For a max floor that is not negative, "positive" and the "nonzero" of the
    specification are the same guard. *)
Lemma throttle_floor_not_negative leaves totalLeaves lot minSize maxFloor odd :
  0 <= maxFloor ->
  throttle_positive_floor leaves totalLeaves lot minSize maxFloor odd
  = throttle_spec leaves totalLeaves lot minSize maxFloor odd.
Proof.
  intros Hfloor. unfold throttle_positive_floor, throttle_spec. cbv zeta.
  destruct (Qle_bool _ 0); [reflexivity |].
  destruct (maxFloor =? 0) eqn:Ez.
  - apply Z.eqb_eq in Ez. rewrite Ez. reflexivity.
  - apply Z.eqb_neq in Ez.
    replace (0 <? maxFloor) with true by (symmetry; apply Z.ltb_lt; lia).
    reflexivity.
Qed.

(** C6 (as amended).  On a tick that reaches the quantity computation with
    leaves > 0 (inside the window and the trade period, a contract priced,
    no order outstanding, the participation gate passed): when maxQty <= 0
    the tick places no order; otherwise it places exactly one order, whose
    quantity is ceil(leaves/L)*L raised to minSize, then capped to maxFloor
    if maxFloor is positive and the value exceeds it, then capped to maxQty.
    A max floor that is not positive is ignored; for a max floor that is not
    negative this is the throttle of the specification, with its "nonzero". *)
Theorem C6_quantity_throttle this w c leaves gen :
  GetTime w <= end_time_ this ->
  IsInTradePeriod w = true ->
  price_contract this w = Some c ->
  Instrument.active_orders (inst w) = [] ->
  over_participation this w = false ->
  GetLeaves this w = (leaves, gen) ->
  (0 < leaves)%Q ->
  let totalLeaves := (SecurityTuple.qty (st_ this) - total_exposure (inst w))%Q in
  let lot := Security.lot_size (Instrument.sec (inst w)) in
  let odd := Exchange.odd_lot_allowed (Security.exchange (Instrument.sec (inst w))) in
  Timer this w
  = match throttle_positive_floor leaves totalLeaves lot
            (min_size_ this) (max_floor_ this) odd
    with
    | None => ([SetTimeout 1], gen)
    | Some q =>
        ([SetTimeout 1;
          Place (Contract.mk q (Contract.price c) (SecurityTuple.acc (st_ this))
                   (SecurityTuple.side (st_ this)) (Contract.type c)
                   (SecurityTuple.position_effect (st_ this)))], gen)
    end
  /\ (0 <= max_floor_ this ->
      throttle_positive_floor leaves totalLeaves lot (min_size_ this) (max_floor_ this) odd
      = throttle_spec leaves totalLeaves lot (min_size_ this) (max_floor_ this) odd).
Proof.
  intros Hend Htrade Hc Hnone Hpov Hleaves Hpos totalLeaves lot odd.
  split; [| apply throttle_floor_not_negative].
  unfold Timer. cbv zeta.
  replace (end_time_ this <? GetTime w) with false by (symmetry; apply Z.ltb_ge; lia).
  rewrite Htrade, Hc, Hnone, Hpov, Hleaves. cbn [negb].
  replace (Qle_bool leaves 0) with false
    by (symmetry; apply not_true_iff_false; rewrite Qle_bool_iff; lra).
  rewrite place_order_throttle. fold totalLeaves lot odd.
  destruct (throttle_positive_floor _ _ _ _ _ _); reflexivity.
Qed.

(** ** C7: the participation gate *)

(** C7.  On a tick with no outstanding order, when a participation cap is
    configured (> 0), the traded volume since the baseline is positive and
    filled minus cancelled exceeds the cap times that volume, no order is
    placed: the tick only stops or re-arms.  The gate comes before the
    schedule: [GetLeaves] is not run, so the random engine is left where it
    was, whatever the schedule would have asked for. *)
Theorem C7_participation_gate this w :
  let volume :=
    (MarketData.volume (MarketData.trade (Instrument.md (inst w)))
     - initial_volume_ this)%Q in
  Instrument.active_orders (inst w) = [] ->
  (0 < max_pov_ this)%Q ->
  (0 < volume)%Q ->
  (max_pov_ this * volume
   < Instrument.cum_qty (inst w) - Instrument.cum_cx_qty (inst w))%Q ->
  places (fst (Timer this w)) = 0%nat
  /\ (Timer this w = ([Stop], kRandomGen w)
      \/ Timer this w = ([SetTimeout 1], kRandomGen w)).
Proof.
  intros volume Hnone Hcap Hvol Hover.
  assert (Hgate : over_participation this w = true).
  { unfold over_participation. cbv zeta. fold volume.
    apply Qltb_lt in Hcap, Hvol, Hover. rewrite Hcap, Hvol, Hover. reflexivity. }
  assert (H : Timer this w = ([Stop], kRandomGen w)
              \/ Timer this w = ([SetTimeout 1], kRandomGen w)).
  { unfold Timer. cbv zeta. rewrite Hnone, Hgate.
    destruct (_ <? _); [left; reflexivity | right].
    destruct (negb _); [reflexivity |].
    destruct (price_contract this w); reflexivity. }
  split; [| exact H].
  destruct H as [-> | ->]; reflexivity.
Qed.

(** ** C9: cancelling an outstanding order *)

Lemma cancel_order_iff this bid ask c ord a :
  In a (cancel_order this bid ask c ord) <->
  a = Cancel ord
  /\ (0 < Contract.price c)%Q
  /\ ~ (Contract.price c == Order.price ord)%Q
  /\ worse_than_touch (SecurityTuple.side (st_ this)) bid ask ord.
Proof.
  unfold cancel_order, worse_than_touch.
  destruct (IsBuy _); cmp_cases; cbn [orb andb In];
    intuition (try lra; try discriminate; auto).
Qed.

(** C9.  On a tick with outstanding orders, [Timer] cancels such an order if
    and only if the tick prices a contract (it is inside the window and the
    trade period, and the aggression chain does not abstain) whose price is
    valid (> 0) and differs from the resting price of the order, and the
    order is worse than the touch: for a buy its price is below the bid, for
    a sell the ask is known (> 0) and its price is above the ask.  Otherwise
    the order is left resting. *)
Theorem C9_cancel_outstanding this w ord :
  In ord (Instrument.active_orders (inst w)) ->
  let md := Instrument.md (inst w) in
  let bid := MarketData.bid_price (MarketData.quote md) in
  let ask := MarketData.ask_price (MarketData.quote md) in
  In (Cancel ord) (fst (Timer this w)) <->
  GetTime w <= end_time_ this
  /\ IsInTradePeriod w = true
  /\ exists c,
       price_contract this w = Some c
       /\ (0 < Contract.price c)%Q
       /\ ~ (Contract.price c == Order.price ord)%Q
       /\ worse_than_touch (SecurityTuple.side (st_ this)) bid ask ord.
Proof.
  intros Hord md bid ask. unfold Timer. cbv zeta. fold md bid ask.
  destruct (end_time_ this <? GetTime w) eqn:Eend;
    [apply Z.ltb_lt in Eend | apply Z.ltb_ge in Eend].
  { cbn. split; [intros [H | []]; discriminate | intros [H _]; lia]. }
  destruct (IsInTradePeriod w); cbn [negb].
  2: { cbn. split; [intros [H | []]; discriminate | intros (_ & H & _); discriminate]. }
  destruct (price_contract this w) as [c |].
  2: { cbn. split; [intros [H | []]; discriminate
                   | intros (_ & _ & c & H & _); discriminate]. }
  destruct (Instrument.active_orders (inst w)) as [| o os] eqn:Eo; [destruct Hord |].
  cbn [fst app In]. rewrite in_flat_map. split.
  - intros [H | (ord' & _ & H)]; [discriminate |].
    apply cancel_order_iff in H as ([= <-] & H).
    split; [exact Eend |]. split; [reflexivity |]. exists c. split; [reflexivity | exact H].
  - intros (_ & _ & c' & [= <-] & H). right. exists ord.
    split; [exact Hord |]. apply cancel_order_iff. split; [reflexivity | exact H].
Qed.

(** ** C8: one outstanding order *)

Lemma Timer_places this w : (places (fst (Timer this w)) <= 1)%nat.
Proof.
  unfold Timer. cbv zeta.
  destruct (_ <? _); [cbn; lia |].
  destruct (negb _); [cbn; lia |].
  destruct (price_contract this w) as [c |]; [| cbn; lia].
  destruct (Instrument.active_orders (inst w)) as [| o os].
  - destruct (over_participation this w); [cbn; lia |].
    destruct (GetLeaves this w) as [leaves gen].
    destruct (Qle_bool leaves 0); [cbn; lia |].
    cbn [fst app]. change (places (SetTimeout 1 :: ?l)) with (places l).
    apply place_order_places.
  - cbn [fst app]. change (places (SetTimeout 1 :: ?l)) with (places l).
    rewrite cancel_orders_places. lia.
Qed.

Lemma Timer_outstanding this w :
  Instrument.active_orders (inst w) <> [] -> places (fst (Timer this w)) = 0%nat.
Proof.
  intros Hord. unfold Timer. cbv zeta.
  destruct (_ <? _); [reflexivity |].
  destruct (negb _); [reflexivity |].
  destruct (price_contract this w) as [c |]; [| reflexivity].
  destruct (Instrument.active_orders (inst w)) as [| o os]; [congruence |].
  cbn [fst app]. change (places (SetTimeout 1 :: ?l)) with (places l).
  apply cancel_orders_places.
Qed.

Lemma placed_length out : length (placed out) = places out.
Proof.
  unfold placed, places.
  induction out as [| [| | |] out IH]; cbn; congruence.
Qed.

(** C8.  In every reachable state of a running instance at most one child
    order is outstanding, and a tick on which an order is outstanding issues
    no Place intent. *)
Theorem C8_single_outstanding_order s :
  reachable s ->
  (length (Instrument.active_orders (inst (world s))) <= 1)%nat
  /\ (Instrument.active_orders (inst (world s)) <> [] ->
      places (fst (Timer (algo s) (world s))) = 0%nat).
Proof.
  intros Hreach. split; [| apply Timer_outstanding].
  induction Hreach as [s H | s s' Hreach IH Hstep].
  - rewrite H. cbn. lia.
  - destruct Hstep as [s | s params | s w Hsub].
    + unfold tick.
      pose proof (Timer_places (algo s) (world s)) as Hone.
      pose proof (Timer_outstanding (algo s) (world s)) as Hnone.
      destruct (Timer (algo s) (world s)) as [out gen].
      cbn [fst] in Hone, Hnone. cbn.
      rewrite length_app, placed_length.
      destruct (Instrument.active_orders (inst (world s))) as [| o os].
      * cbn. lia.
      * rewrite Hnone by discriminate. exact IH.
    + exact IH.
    + cbn. apply sublist_length in Hsub. lia.
Qed.

End Properties.
(** C1, witness: Highest on a quoted instrument; Low and Medium on the
    sample instrument without prices. *)
Lemma C1_fallback_without_prices_witness :
  yields_market (Sample.started kAggHighest) (Sample.world Sample.quoted_inst 1001)
  /\ no_prices (Sample.world Sample.idle_inst 1001)
  /\ (price_contract (Sample.started kAggLow) (Sample.world Sample.idle_inst 1001) = None
      /\ no_order_action
           (fst (Timer (Sample.started kAggLow) (Sample.world Sample.idle_inst 1001))))
  /\ yields_market (Sample.started kAggMedium) (Sample.world Sample.idle_inst 1001).
Proof.
  assert (H : no_prices (Sample.world Sample.idle_inst 1001))
    by (repeat split; reflexivity).
  split.
  { exact (proj1 (C1_fallback_without_prices (Sample.started kAggHighest)
                    (Sample.world Sample.quoted_inst 1001)) eq_refl). }
  split; [exact H |]. split.
  - exact (proj2 (C1_fallback_without_prices (Sample.started kAggLow)
                    (Sample.world Sample.idle_inst 1001)) H).
  - exact (proj2 (C1_fallback_without_prices (Sample.started kAggMedium)
                    (Sample.world Sample.idle_inst 1001)) H).
Defined.

(** C1, counterexample to the claim as stated: at Medium, with bid, ask and
    last price all 0, the tick does not abstain; it places a market order. *)
Lemma C1_medium_places_market_order :
  agg_ (Sample.started kAggMedium) = kAggMedium
  /\ no_prices (Sample.world Sample.idle_inst 1001)
  /\ fst (Timer (Sample.started kAggMedium) (Sample.world Sample.idle_inst 1001))
     = [SetTimeout 1; Place (Contract.mk 100 0 7 kBuy kMarket kOpenPosition)]
  /\ ~ no_order_action
         (fst (Timer (Sample.started kAggMedium) (Sample.world Sample.idle_inst 1001))).
Proof.
  split; [reflexivity |].
  split; [repeat split; reflexivity |].
  assert (E : fst (Timer (Sample.started kAggMedium) (Sample.world Sample.idle_inst 1001))
              = [SetTimeout 1; Place (Contract.mk 100 0 7 kBuy kMarket kOpenPosition)])
    by (vm_compute; reflexivity).
  split; [exact E |].
  intros H. rewrite E in H.
  destruct (H (Place (Contract.mk 100 0 7 kBuy kMarket kOpenPosition))) as [Hp _];
    [right; left; reflexivity | discriminate Hp].
Qed.

(** C2, witness: Price 10.5 together with an Aggression token that is none
    of the four. *)
Lemma C2_failed_modify_witness :
  let this := Sample.started kAggMedium in
  let params : ParamMap :=
    <["Price" := PDouble (21 # 2)]> (<["Aggression" := PString "Bogus"]> ∅) in
  let failed := fst (Modify this Sample.idle_inst params) in
  snd (Modify this Sample.idle_inst params) <> ""%string
  /\ agg_ failed = kAggMedium
  /\ price_ failed = price_ (fst (Modify this Sample.idle_inst (delete "Aggression"%string params))).
Proof.
  intros this params failed.
  assert (H : snd (Modify this Sample.idle_inst params) <> ""%string)
    by (vm_compute; discriminate).
  split; [exact H |].
  destruct (C2_failed_modify this Sample.idle_inst params H)
    as (_ & _ & Hagg & _ & _ & _ & Hprice & _).
  split; [exact Hagg | exact Hprice].
Defined.

(** C2, counterexample to the claim as stated: the call fails, and the limit
    price of the prior configuration, 0, has become 10.5. *)
Lemma C2_failed_modify_changes_price :
  let this := Sample.started kAggMedium in
  let params : ParamMap :=
    <["Price" := PDouble (21 # 2)]> (<["Aggression" := PString "Bogus"]> ∅) in
  Modify this Sample.idle_inst params
  = (set_price_ (21 # 2) this,
     "Invalid aggression, must be in (Low, Medium, High, Highest)"%string)
  /\ price_ this = 0%Q
  /\ ~ (price_ (fst (Modify this Sample.idle_inst params)) == price_ this)%Q.
Proof.
  intros this params.
  assert (E : Modify this Sample.idle_inst params
              = (set_price_ (21 # 2) this,
                 "Invalid aggression, must be in (Low, Medium, High, Highest)"%string))
    by (vm_compute; reflexivity).
  split; [exact E |]. split; [reflexivity |].
  rewrite E. cbn. intros H. discriminate H.
Qed.

(** C3, the failing run: a start with MinSize 100 and MaxFloor 200 on a
    security with lot size 100, then a [Modify] that raises MinSize to 300.
    Both calls succeed, and the running instance is left with a positive max
    floor, 200, below its min size, 300. *)
Theorem C3_min_size_raised_above_max_floor :
  let start_params : ParamMap :=
    <["Security" := PSecurity Sample.buy_1000]>
      (<["ValidSeconds" := PInt 60]>
         (<["MinSize" := PInt 100]> (<["MaxFloor" := PInt 200]> ∅))) in
  let modify_params : ParamMap := <["MinSize" := PInt 300]> ∅ in
  let w := Sample.world Sample.idle_inst 1000 in
  let this1 := fst (fst (OnStart Sample.fresh w start_params)) in
  let this2 := fst (Modify this1 Sample.idle_inst modify_params) in
  snd (OnStart Sample.fresh w start_params) = ""%string
  /\ snd (Modify this1 Sample.idle_inst modify_params) = ""%string
  /\ running Sample.idle_inst this2
  /\ min_size_ this2 = 300
  /\ max_floor_ this2 = 200
  /\ floor_below_min this2.
Proof.
  intros start_params modify_params w this1 this2.
  assert (E1 : snd (OnStart Sample.fresh w start_params) = ""%string)
    by (vm_compute; reflexivity).
  assert (E2 : snd (Modify this1 Sample.idle_inst modify_params) = ""%string)
    by (vm_compute; reflexivity).
  split; [exact E1 |]. split; [exact E2 |].
  split.
  - apply running_modify with (this := this1) (params := modify_params).
    + apply running_start with (this0 := Sample.fresh) (w := w)
        (params := start_params) (out := snd (fst (OnStart Sample.fresh w start_params)));
        [reflexivity |].
      rewrite <- E1. subst this1.
      destruct (OnStart Sample.fresh w start_params) as [[? ?] ?]. reflexivity.
    + rewrite <- E2. subst this2.
      destruct (Modify this1 Sample.idle_inst modify_params). reflexivity.
  - assert (Em : min_size_ this2 = 300) by (vm_compute; reflexivity).
    assert (Ef : max_floor_ this2 = 200) by (vm_compute; reflexivity).
    split; [exact Em |]. split; [exact Ef |].
    unfold floor_below_min. rewrite Em, Ef. lia.
Qed.

(** C4, witness: a short sale of a CN stock; a candidate price of 10.00 is
    raised to the last price, 10.10, and so is the market order of the
    sample short sale. *)
Lemma C4_no_markdown_rule_witness :
  let params : ParamMap :=
    <["Security" := PSecurity Sample.short_1000]> (<["ValidSeconds" := PInt 60]> ∅) in
  let started :=
    fst (fst (OnStart Sample.fresh (Sample.world Sample.filled_inst 1000) params)) in
  not_lower_than_last_px_ started = true
  /\ no_markdown started (101 # 10) (Contract.set_price 10 Contract.default)
     = Contract.set_price (101 # 10) (Contract.set_price 10 Contract.default)
  /\ (101 # 10 <= 101 # 10)%Q.
Proof.
  intros params started.
  destruct (C4_no_markdown_rule Sample.fresh (Sample.world Sample.filled_inst 1000) params)
    as (Hiff & _ & Hraise & Hfloor).
  assert (Hon : not_lower_than_last_px_ started = true)
    by (apply Hiff; repeat split; reflexivity).
  split; [exact Hon |].
  split; [apply Hraise; [exact Hon | reflexivity] |].
  exact (Hfloor Sample.short_sale (Sample.world Sample.quoted_inst 1001)
           (Contract.mk 0 (101 # 10) 0 kBuy kMarket kOpenPosition) eq_refl eq_refl).
Defined.

(** C4, counterexample to the claim as stated: the rule is on for a sell
    that opens a position, which the claim excludes, and off for a sell that
    opens none, which the claim includes. *)
Lemma C4_rule_follows_open_position :
  let opening : ParamMap :=
    <["Security" := PSecurity Sample.short_1000]> (<["ValidSeconds" := PInt 60]> ∅) in
  let closing : ParamMap :=
    <["Security" := PSecurity Sample.sell_close_1000]> (<["ValidSeconds" := PInt 60]> ∅) in
  let w := Sample.world Sample.filled_inst 1000 in
  (snd (OnStart Sample.fresh w opening) = ""%string
   /\ not_lower_than_last_px_ (fst (fst (OnStart Sample.fresh w opening))) = true
   /\ no_markdown_as_specified (st_ (fst (fst (OnStart Sample.fresh w opening)))) = false)
  /\ (snd (OnStart Sample.fresh w closing) = ""%string
      /\ not_lower_than_last_px_ (fst (fst (OnStart Sample.fresh w closing))) = false
      /\ no_markdown_as_specified (st_ (fst (fst (OnStart Sample.fresh w closing)))) = true).
Proof. vm_compute. repeat split; reflexivity. Qed.

(** C5, witness: half-way through the window, with a Tilt of 2 supplied. *)
Lemma C5_schedule_witness :
  let this := Sample.started kAggMedium in
  let w := Sample.world Sample.filled_inst 1030 in
  let params : ParamMap := <["Tilt" := PDouble 2]> ∅ in
  (time_ratio 1000 1060 1030 == 31 # 61)%Q
  /\ (fst (GetLeaves this w) == (1000 * (31 # 61) - 60))%Q
  /\ tilt_ (fst (Modify this Sample.filled_inst params)) = (exp (- 2) / 5)%Q.
Proof.
  intros this w params.
  assert (Hwin : start_time_ this <= GetTime w <= end_time_ this) by (cbn; lia).
  destruct (C5_schedule this w Hwin) as (_ & Hleaves & _ & _ & Htilt).
  split; [reflexivity |].
  split; [rewrite Hleaves; reflexivity |].
  apply (Htilt Sample.filled_inst params 2%Q); reflexivity.
Defined.

(** C6, witness: 1000 to buy, nothing filled, lot size 100, MinSize 100,
    MaxFloor 200; one second into the window the leaves are 2000/61 and the
    tick places one lot. *)
Lemma C6_quantity_throttle_witness :
  let this := Sample.started kAggMedium in
  let w := Sample.world Sample.idle_inst 1001 in
  (0 < 2000 # 61)%Q
  /\ throttle_positive_floor (2000 # 61) 1000 100 100 200 false = Some 100%Q
  /\ throttle_spec (2000 # 61) 1000 100 100 200 false = Some 100%Q
  /\ Timer this w
     = ([SetTimeout 1; Place (Contract.mk 100 0 7 kBuy kMarket kOpenPosition)], 0%nat).
Proof.
  intros this w.
  assert (Hpos : (0 < 2000 # 61)%Q) by reflexivity.
  split; [exact Hpos |]. split; [reflexivity |]. split; [reflexivity |].
  refine (proj1 (C6_quantity_throttle this w
                   (Contract.set_type kMarket Contract.default)
                   (2000 # 61) 0%nat _ _ _ _ _ _ Hpos));
    solve [reflexivity | cbn; lia | vm_compute; discriminate].
Defined.

(** C6, counterexample to the claim as stated: a start with MaxFloor -5 on a
    security with lot size 100 and no MinSize succeeds and stores the max
    floor as given.  Half-way through the window the tick reaches the
    quantity computation with leaves 31000/61 and places 600, while the
    throttle of the claim, which caps to any nonzero max floor, yields -5. *)
Lemma C6_negative_max_floor_is_ignored :
  let params : ParamMap :=
    <["Security" := PSecurity Sample.buy_1000]>
      (<["ValidSeconds" := PInt 60]>
         (<["MaxFloor" := PInt (-5)]> (<["Aggression" := PString "Medium"]> ∅))) in
  let this := fst (fst (OnStart Sample.fresh (Sample.world Sample.quoted_inst 1000) params)) in
  let w := Sample.world Sample.quoted_inst 1030 in
  snd (OnStart Sample.fresh (Sample.world Sample.quoted_inst 1000) params) = ""%string
  /\ max_floor_ this = -5
  /\ price_contract this w = Some (Contract.set_price (101 # 10) Contract.default)
  /\ over_participation this w = false
  /\ GetLeaves this w = ((31000 # 61)%Q, 0%nat)
  /\ Timer this w
     = ([SetTimeout 1; Place (Contract.mk 600 (101 # 10) 7 kBuy kLimit kOpenPosition)],
        0%nat)
  /\ throttle_spec (31000 # 61)
       (SecurityTuple.qty (st_ this) - total_exposure (inst w)) 100 0 (-5) false
     = Some (-5)%Q.
Proof. intros params this w. vm_compute. repeat split; reflexivity. Qed.

(** C7, witness: MaxPov 0.1, 500 traded since the start, 60 filled and none
    cancelled: 60 > 0.1 x 500 and the tick only re-arms. *)
Lemma C7_participation_gate_witness :
  ((1 # 10) * (500 - 0) < 60 - 0)%Q
  /\ places (fst (Timer Sample.capped (Sample.world Sample.filled_inst 1001))) = 0%nat
  /\ Timer Sample.capped (Sample.world Sample.filled_inst 1001) = ([SetTimeout 1], 0%nat).
Proof.
  assert (Hover : ((1 # 10) * (500 - 0) < 60 - 0)%Q) by reflexivity.
  split; [exact Hover |].
  destruct (C7_participation_gate Sample.capped (Sample.world Sample.filled_inst 1001))
    as [Hnone Hshape]; try reflexivity.
  split; [exact Hnone |].
  destruct Hshape as [H | H]; [| exact H].
  vm_compute in H. discriminate H.
Defined.

(** C8, witness: the state after the first tick of the sample instance,
    which placed one order. *)
Lemma C8_single_outstanding_order_witness :
  let s := tick (mkSystem (Sample.started kAggMedium) (Sample.world Sample.idle_inst 1001)) in
  Instrument.active_orders (inst (world s)) = [Order.mk 0 0 100]
  /\ (length (Instrument.active_orders (inst (world s))) <= 1)%nat
  /\ places (fst (Timer (algo s) (world s))) = 0%nat.
Proof.
  intros s.
  assert (Hreach : reachable s).
  { apply reachable_step
      with (s := mkSystem (Sample.started kAggMedium) (Sample.world Sample.idle_inst 1001)).
    - apply reachable_start. reflexivity.
    - apply step_tick. }
  assert (Hord : Instrument.active_orders (inst (world s)) = [Order.mk 0 0 100])
    by (vm_compute; reflexivity).
  destruct (C8_single_outstanding_order s Hreach) as [Hlen Hnone].
  split; [exact Hord |]. split; [exact Hlen |].
  apply Hnone. rewrite Hord. discriminate.
Defined.

(** C9, witness: a buy at Low prices its contract at the bid, 10.00; the
    order resting at 9.90 is below the bid and is cancelled. *)
Lemma C9_cancel_outstanding_witness :
  In Sample.resting (Instrument.active_orders Sample.busy_inst)
  /\ In (Cancel Sample.resting)
       (fst (Timer (Sample.started kAggLow) (Sample.world Sample.busy_inst 1001))).
Proof.
  assert (Hin : In Sample.resting (Instrument.active_orders Sample.busy_inst))
    by (left; reflexivity).
  split; [exact Hin |].
  apply (C9_cancel_outstanding (Sample.started kAggLow)
           (Sample.world Sample.busy_inst 1001) Sample.resting Hin).
  split; [cbn; lia |]. split; [reflexivity |].
  exists (Contract.set_price 10 Contract.default).
  split; [vm_compute; reflexivity |].
  split; [reflexivity |].
  split; [intros H; discriminate H | reflexivity].
Defined.

(** C10, witness: a short sale at Highest with a limit of 10.50 and the rule
    on; the market order carries the last price, 10.10. *)
Lemma C10_market_order_no_markdown_witness :
  let this := set_price_ (21 # 2) Sample.short_sale in
  let w := Sample.world Sample.quoted_inst 1001 in
  price_contract this w
  = Some (Contract.mk 0 (101 # 10) 0 kBuy kMarket kOpenPosition)
  /\ Timer this w
     = ([SetTimeout 1; Place (Contract.mk 100 (101 # 10) 7 kSell kMarket kOpenPosition)],
        0%nat)
  /\ forall c', In (Place c') (fst (Timer this w)) ->
       Contract.type c' = kMarket /\ Contract.price c' = (101 # 10)%Q.
Proof.
  intros this w.
  destruct (C10_market_order_no_markdown this w
              (Contract.set_type kMarket Contract.default))
    as (_ & c & Hc & _ & Hprice & Hplace); [reflexivity | reflexivity |].
  assert (Hp : price_contract this w
               = Some (Contract.mk 0 (101 # 10) 0 kBuy kMarket kOpenPosition))
    by (vm_compute; reflexivity).
  split; [exact Hp |]. split; [vm_compute; reflexivity |].
  intros c' Hin. destruct (Hplace c' Hin) as [Hty Hpx].
  split; [exact Hty |]. rewrite Hpx, Hprice. reflexivity.
Defined.

(** * Further properties of twap.cc *)

(** Case analysis on the conditionals and parameter reads of a step of
    [Modify]. *)
Ltac step_cases :=
  repeat match goal with
         | |- context [let '(_, _) := ?g in _] => destruct g as [? ?]
         | |- context [if ?b then _ else _] => destruct b
         end.

Section Parameters.

Context {P : Platform}.

(** ** Modify: the aggression token *)

(** X1.  The aggression parser accepts exactly the four literals Low,
    Medium, High and Highest, case-sensitively, each selecting its own
    level. *)
Theorem X1_parse_aggression_tokens s a :
  parse_aggression s = Some a <-> s = aggression_token a.
Proof.
  unfold parse_aggression.
  destruct (String.eqb_spec s "Low") as [-> | H1];
    [destruct a; split; intros H; try discriminate H; reflexivity |].
  destruct (String.eqb_spec s "Medium") as [-> | H2];
    [destruct a; split; intros H; try discriminate H; reflexivity |].
  destruct (String.eqb_spec s "High") as [-> | H3];
    [destruct a; split; intros H; try discriminate H; reflexivity |].
  destruct (String.eqb_spec s "Highest") as [-> | H4];
    [destruct a; split; intros H; try discriminate H; reflexivity |].
  split; [discriminate |]. intros ->. destruct a; simpl in *; congruence.
Qed.

(** The members of the result of [Modify], step by step. *)
Lemma Modify_members this inst_ params :
  let lot := Security.lot_size (Instrument.sec inst_) in
  let sized := modify_min_size lot params (modify_price params this) in
  let r := fst (Modify this inst_ params) in
  price_ r = price_ (modify_price params this)
  /\ min_size_ r = min_size_ sized
  /\ max_floor_ r = max_floor_ (modify_max_floor lot params sized)
  /\ max_pov_ r = max_pov_ (modify_max_pov params this).
Proof.
  intros lot sized r. subst r. unfold Modify. cbv zeta. fold lot. fold sized.
  assert (Hd : let d := modify_max_pov params (modify_max_floor lot params sized) in
               price_ d = price_ (modify_price params this)
               /\ min_size_ d = min_size_ sized
               /\ max_floor_ d = max_floor_ (modify_max_floor lot params sized)
               /\ max_pov_ d = max_pov_ (modify_max_pov params this)).
  { cbv zeta.
    destruct (modify_max_pov_frame params (modify_max_floor lot params sized))
      as (-> & -> & -> & _).
    destruct (modify_max_floor_frame lot params sized) as (-> & -> & Hp & _).
    subst sized.
    destruct (modify_min_size_frame lot params (modify_price params this))
      as (-> & _ & Hp' & _).
    destruct (modify_price_frame params this) as (_ & _ & Hp'' & _).
    repeat split.
    unfold modify_max_pov. rewrite Hp, Hp', Hp''. step_cases; reflexivity. }
  cbv zeta in Hd.
  destruct (modify_aggression params _) as [t |] eqn:Ea; cbn [fst]; [| exact Hd].
  apply modify_aggression_frame in Ea as (Ea1 & Ea2 & Ea3 & Ea4 & _).
  destruct (modify_tail_frame params t) as (-> & -> & -> & -> & _).
  rewrite Ea1, Ea2, Ea3, Ea4. exact Hd.
Qed.

(** X2.  [Modify] looks at the Aggression key only when it holds a string:
    a recognized token makes the call succeed with that level, any other
    string makes it fail with the aggression error and the level unchanged,
    and without the key (or with a value that is no string) the call
    succeeds and keeps the level. *)
Theorem X2_Modify_aggression_outcome this inst_ params :
  match params !! "Aggression" with
  | Some (PString agg) =>
      match parse_aggression agg with
      | Some a =>
          snd (Modify this inst_ params) = ""%string
          /\ agg_ (fst (Modify this inst_ params)) = a
      | None =>
          snd (Modify this inst_ params)
          = "Invalid aggression, must be in (Low, Medium, High, Highest)"%string
          /\ agg_ (fst (Modify this inst_ params)) = agg_ this
      end
  | _ =>
      snd (Modify this inst_ params) = ""%string
      /\ agg_ (fst (Modify this inst_ params)) = agg_ this
  end.
Proof.
  set (lot := Security.lot_size (Instrument.sec inst_)).
  set (d := modify_max_pov params
              (modify_max_floor lot params
                 (modify_min_size lot params (modify_price params this)))).
  assert (Hagg : agg_ d = agg_ this).
  { subst d.
    destruct (modify_max_pov_frame params
                (modify_max_floor lot params
                   (modify_min_size lot params (modify_price params this))))
      as (_ & _ & _ & -> & _).
    destruct (modify_max_floor_frame lot params
                (modify_min_size lot params (modify_price params this)))
      as (_ & _ & _ & -> & _).
    destruct (modify_min_size_frame lot params (modify_price params this))
      as (_ & _ & _ & -> & _).
    apply modify_price_frame. }
  assert (Htail : forall t, agg_ (modify_tilt params (modify_random params t)) = agg_ t)
    by (intros t; apply modify_tail_frame).
  unfold Modify. cbv zeta. fold lot. fold d.
  unfold modify_aggression, GetParam_string.
  destruct (params !! "Aggression") as [[b | i | q | agg | st] |]; cbn [fst snd];
    try (split; [reflexivity | rewrite Htail; exact Hagg]).
  destruct (parse_aggression agg) as [a |]; cbn [fst snd].
  - split; [reflexivity | rewrite Htail; reflexivity].
  - split; [reflexivity | exact Hagg].
Qed.

(** ** Modify: participation, sizes, limit price *)

Lemma GetParam_double_supplied (params : ParamMap) name d :
  GetParam_double params name d
  = match supplied_double params name with
    | Some v => (v, true)
    | None => (d, false)
    end.
Proof.
  unfold GetParam_double, supplied_double.
  destruct (params !! name) as [[] |]; reflexivity.
Qed.

Lemma GetParam_int_supplied (params : ParamMap) name d :
  GetParam_int params name d
  = match supplied_int params name with
    | Some v => (v, true)
    | None => (d, false)
    end.
Proof.
  unfold GetParam_int, supplied_int.
  destruct (params !! name) as [[] |]; reflexivity.
Qed.

(** X3.  After every [Modify] call, failed ones included, the participation
    cap is at most 1: it is the smaller of 1 and the value supplied as
    MaxPov, or of 1 and the previous cap when the key is not supplied. *)
Theorem X3_Modify_max_pov_clamped this inst_ params :
  let v := match supplied_double params "MaxPov" with
           | Some v => v
           | None => max_pov_ this
           end in
  max_pov_ (fst (Modify this inst_ params)) = Qmin v 1
  /\ (max_pov_ (fst (Modify this inst_ params)) <= 1)%Q.
Proof.
  intros v.
  destruct (Modify_members this inst_ params) as (_ & _ & _ & ->).
  assert (E : max_pov_ (modify_max_pov params this) = Qmin v 1).
  { unfold modify_max_pov. cbv zeta. rewrite GetParam_double_supplied, Qmin_if.
    subst v. destruct (supplied_double params "MaxPov"); cbn [fst];
      destruct (Qltb 1 _); reflexivity. }
  rewrite E. split; [reflexivity | apply Q.le_min_r].
Qed.

Lemma quot_lot_multiple v lot :
  0 < v -> 0 < lot ->
  (lot | Z.quot v lot * lot)
  /\ 0 <= Z.quot v lot * lot <= v
  /\ v - lot < Z.quot v lot * lot.
Proof.
  intros Hv Hlot. rewrite Z.quot_div_nonneg by lia.
  split; [apply Z.divide_factor_r |].
  pose proof (Z.mul_div_le v lot Hlot) as Hle.
  pose proof (Z.mod_pos_bound v lot Hlot) as Hmod.
  pose proof (Z.div_mod v lot ltac:(lia)) as Hdm.
  pose proof (Z.div_pos v lot ltac:(lia) Hlot) as Hq.
  nia.
Qed.

(** X4.  On a security with a lot size, a positive MinSize is stored as the
    largest multiple of the lot size not above it (so a MinSize below one
    lot becomes 0), and a positive MaxFloor is stored either as the largest
    multiple of the lot size not above it or, when that lies below a
    positive min size, as 0. *)
Theorem X4_Modify_lot_multiples this inst_ params :
  let lot := Security.lot_size (Instrument.sec inst_) in
  let r := fst (Modify this inst_ params) in
  0 < lot ->
  (forall v, supplied_int params "MinSize" = Some v -> 0 < v ->
     min_size_ r = v / lot * lot
     /\ (lot | min_size_ r) /\ 0 <= min_size_ r <= v /\ v - lot < min_size_ r)
  /\ (forall v, supplied_int params "MaxFloor" = Some v -> 0 < v ->
        (max_floor_ r = 0 \/ max_floor_ r = v / lot * lot)
        /\ (lot | max_floor_ r) /\ 0 <= max_floor_ r <= v
        /\ (max_floor_ r = 0 <-> v / lot * lot < min_size_ r \/ v < lot)).
Proof.
  intros lot r Hlot.
  destruct (Modify_members this inst_ params) as (_ & Hmin & Hfloor & _).
  fold lot in Hmin, Hfloor. fold r in Hmin, Hfloor.
  split.
  - intros v Hv Hpos. rewrite Hmin.
    unfold modify_min_size. rewrite GetParam_int_supplied, Hv.
    replace (0 <? v) with true by (symmetry; apply Z.ltb_lt; lia).
    replace (0 <? lot) with true by (symmetry; apply Z.ltb_lt; lia).
    cbn [andb min_size_ set_min_size_].
    destruct (quot_lot_multiple v lot Hpos Hlot) as (Hd & Hb & Hl).
    rewrite Z.quot_div_nonneg in * by lia. auto.
  - intros v Hv Hpos. rewrite Hfloor, Hmin.
    unfold modify_max_floor. rewrite GetParam_int_supplied, Hv. cbv zeta.
    replace (0 <? v) with true by (symmetry; apply Z.ltb_lt; lia).
    replace (0 <? lot) with true by (symmetry; apply Z.ltb_lt; lia).
    cbn [andb].
    destruct (quot_lot_multiple v lot Hpos Hlot) as (Hd & Hb & Hl).
    rewrite Z.quot_div_nonneg in * by lia.
    set (m := min_size_ (modify_min_size lot params (modify_price params this))) in *.
    assert (Hz : v / lot * lot = 0 <-> v < lot).
    { split; intros H; [lia |]. rewrite Z.div_small by lia. reflexivity. }
    destruct ((0 <? m) && (v / lot * lot <? m)) eqn:E; cbn [max_floor_ set_max_floor_].
    + apply andb_true_iff in E as [E1 E2]. apply Z.ltb_lt in E1, E2.
      split; [left; reflexivity |].
      split; [apply Z.divide_0_r |]. split; [lia |]. split; auto.
    + apply andb_false_iff in E.
      split; [right; reflexivity |]. split; [exact Hd |]. split; [exact Hb |].
      rewrite Hz. split; [auto |].
      intros [H | H]; [| exact H].
      destruct E as [E | E]; [apply Z.ltb_ge in E | apply Z.ltb_ge in E]; lia.
Qed.

(** X5.  A Price that is supplied and not positive is stored as it is,
    without rounding, and turns the limit off: the clamp of the tick leaves
    every contract as it is. *)
Theorem X5_Modify_price_not_positive this inst_ params v c :
  supplied_double params "Price" = Some v ->
  (v <= 0)%Q ->
  price_ (fst (Modify this inst_ params)) = v
  /\ limit_price (fst (Modify this inst_ params)) c = c.
Proof.
  intros Hv Hle.
  assert (E : price_ (fst (Modify this inst_ params)) = v).
  { destruct (Modify_members this inst_ params) as (-> & _).
    unfold modify_price. rewrite GetParam_double_supplied, Hv.
    replace (Qltb 0 v) with false by (symmetry; apply Qltb_ge; exact Hle).
    reflexivity. }
  split; [exact E |].
  unfold limit_price. rewrite E.
  replace (Qltb 0 v) with false by (symmetry; apply Qltb_ge; exact Hle).
  rewrite andb_false_r. reflexivity.
Qed.

(** Each step of [Modify] keeps the request. *)
Lemma Modify_same_request this inst_ params :
  same_request (fst (Modify this inst_ params)) this.
Proof.
  assert (H1 : forall t, same_request (modify_price params t) t)
    by (intros; unfold modify_price; step_cases; repeat split).
  assert (H2 : forall lot t, same_request (modify_min_size lot params t) t)
    by (intros; unfold modify_min_size; step_cases; repeat split).
  assert (H3 : forall lot t, same_request (modify_max_floor lot params t) t)
    by (intros; unfold modify_max_floor; cbv zeta; step_cases; repeat split).
  assert (H4 : forall t, same_request (modify_max_pov params t) t)
    by (intros; unfold modify_max_pov; cbv zeta; step_cases; repeat split).
  assert (H5 : forall t t', modify_aggression params t = Some t' -> same_request t' t).
  { unfold modify_aggression. intros t t'.
    destruct (GetParam_string _ _ _) as [agg []];
      [destruct (parse_aggression agg) |]; intros [= <-]; repeat split. }
  assert (H6 : forall t, same_request (modify_tilt params (modify_random params t)) t)
    by (intros; unfold modify_tilt, modify_random; step_cases; repeat split).
  assert (Htrans : forall a b c, same_request a b -> same_request b c -> same_request a c).
  { unfold same_request. intros a b c (-> & -> & -> & -> & ->) H. exact H. }
  unfold Modify. cbv zeta.
  set (lot := Security.lot_size (Instrument.sec inst_)).
  assert (Hd : same_request
                 (modify_max_pov params
                    (modify_max_floor lot params
                       (modify_min_size lot params (modify_price params this)))) this).
  { eapply Htrans; [apply H4 |]. eapply Htrans; [apply H3 |].
    eapply Htrans; [apply H2 |]. apply H1. }
  destruct (modify_aggression params _) as [t |] eqn:Ea; cbn [fst]; [| exact Hd].
  eapply Htrans; [apply H6 |]. eapply Htrans; [apply (H5 _ _ Ea) |]. exact Hd.
Qed.

(** X6.  No [Modify] call, successful or not, touches the request, the
    baseline volume, the time window or the no-markdown rule. *)
Theorem X6_Modify_keeps_request this inst_ params :
  let r := fst (Modify this inst_ params) in
  st_ r = st_ this
  /\ initial_volume_ r = initial_volume_ this
  /\ start_time_ r = start_time_ this
  /\ end_time_ r = end_time_ this
  /\ not_lower_than_last_px_ r = not_lower_than_last_px_ this.
Proof.
  intros r.
  destruct (Modify_same_request this inst_ params) as (Hst & Hvol & Hs & He & Hnl).
  repeat split; assumption.
Qed.

(** ** Modify: applying the same parameters again *)

(** A step of [Modify] finds nothing to do on an object whose member already
    holds what the step sets. *)
Lemma modify_price_fix params t0 t :
  price_ t = price_ (modify_price params t0) -> modify_price params t = t.
Proof.
  unfold modify_price. rewrite !GetParam_double_supplied.
  destruct (supplied_double params "Price") as [v |]; intros H; destruct t;
    cbn in *; [destruct (Qltb 0 v) |]; cbn in *; subst; reflexivity.
Qed.

Lemma modify_min_size_fix lot params t0 t :
  min_size_ t = min_size_ (modify_min_size lot params t0) ->
  modify_min_size lot params t = t.
Proof.
  unfold modify_min_size. rewrite !GetParam_int_supplied.
  destruct (supplied_int params "MinSize") as [v |]; intros H; destruct t;
    cbn in *; [destruct ((0 <? v) && (0 <? lot)) |]; cbn in *; subst; reflexivity.
Qed.

Lemma modify_max_floor_fix lot params t0 t :
  min_size_ t = min_size_ t0 ->
  max_floor_ t = max_floor_ (modify_max_floor lot params t0) ->
  modify_max_floor lot params t = t.
Proof.
  unfold modify_max_floor. rewrite !GetParam_int_supplied. cbv zeta.
  destruct (supplied_int params "MaxFloor") as [v |]; intros Hm H; destruct t;
    cbn in *; subst;
    [destruct ((0 <? v) && (0 <? lot));
     destruct ((0 <? min_size_ t0) && (_ <? min_size_ t0)) |];
    cbn in *; subst; reflexivity.
Qed.

Lemma modify_max_pov_fix params t0 t :
  max_pov_ t = max_pov_ (modify_max_pov params t0) -> modify_max_pov params t = t.
Proof.
  unfold modify_max_pov. cbv zeta. rewrite !GetParam_double_supplied.
  destruct (supplied_double params "MaxPov") as [v |]; intros H; destruct t;
    cbn in *.
  - destruct (Qltb 1 v); cbn in *; subst; reflexivity.
  - destruct (Qltb 1 (max_pov_ t0)) eqn:E; cbn in *; subst; [reflexivity |].
    rewrite E. reflexivity.
Qed.

Lemma modify_aggression_fix params t0 t1 t :
  modify_aggression params t0 = Some t1 ->
  agg_ t = agg_ t1 ->
  modify_aggression params t = Some t.
Proof.
  unfold modify_aggression.
  destruct (GetParam_string params "Aggression" kEmptyStr) as [agg []];
    [destruct (parse_aggression agg) |]; intros [= <-] H; [| reflexivity].
  destruct t; cbn in *; subst; reflexivity.
Qed.

Lemma modify_random_fix params t0 t :
  random_ t = random_ (modify_random params t0) -> modify_random params t = t.
Proof.
  unfold modify_random. rewrite !GetParam_double_supplied.
  destruct (supplied_double params "Randomize") as [v |]; intros H; destruct t;
    cbn in *; subst; reflexivity.
Qed.

Lemma modify_tilt_fix params t0 t :
  tilt_ t = tilt_ (modify_tilt params t0) -> modify_tilt params t = t.
Proof.
  unfold modify_tilt. rewrite !GetParam_double_supplied.
  destruct (supplied_double params "Tilt") as [v |]; intros H; destruct t;
    cbn in *; subst; reflexivity.
Qed.

(** X7.  [Modify] is idempotent: applying the same parameters to the object
    a first call has left, with the same instrument, changes nothing more
    and returns the same result, error included. *)
Theorem X7_Modify_idempotent this inst_ params :
  Modify (fst (Modify this inst_ params)) inst_ params = Modify this inst_ params.
Proof.
  destruct (Modify_members this inst_ params) as (Hp & Hm & Hf & Hv).
  set (r := fst (Modify this inst_ params)) in *.
  set (lot := Security.lot_size (Instrument.sec inst_)) in *.
  assert (Hr : Modify this inst_ params
               = match modify_aggression params
                         (modify_max_pov params
                            (modify_max_floor lot params
                               (modify_min_size lot params (modify_price params this))))
                 with
                 | None =>
                     (r, "Invalid aggression, must be in (Low, Medium, High, Highest)"%string)
                 | Some _ => (r, ""%string)
                 end).
  { subst r. unfold Modify. cbv zeta. fold lot.
    destruct (modify_aggression params _); reflexivity. }
  rewrite Hr.
  unfold Modify at 1. cbv zeta. fold lot.
  rewrite (modify_price_fix params this r Hp).
  rewrite (modify_min_size_fix lot params (modify_price params this) r Hm).
  rewrite (modify_max_floor_fix lot params
             (modify_min_size lot params (modify_price params this)) r Hm Hf).
  rewrite (modify_max_pov_fix params this r Hv).
  destruct (modify_aggression params
              (modify_max_pov params
                 (modify_max_floor lot params
                    (modify_min_size lot params (modify_price params this)))))
    as [te |] eqn:Ea.
  - assert (Er : r = modify_tilt params (modify_random params te)).
    { subst r. unfold Modify. cbv zeta. fold lot. rewrite Ea. reflexivity. }
    assert (Ha : agg_ r = agg_ te)
      by (rewrite Er; apply modify_tail_frame).
    rewrite (modify_aggression_fix params _ te r Ea Ha).
    assert (Hrand : random_ r = random_ (modify_random params te)).
    { rewrite Er. unfold modify_tilt. step_cases; reflexivity. }
    rewrite (modify_random_fix params te r Hrand).
    assert (Htilt : tilt_ r = tilt_ (modify_tilt params (modify_random params te)))
      by (rewrite Er; reflexivity).
    rewrite (modify_tilt_fix params (modify_random params te) r Htilt).
    reflexivity.
  - apply modify_aggression_None in Ea.
    rewrite (proj2 (modify_aggression_None params r) Ea). reflexivity.
Qed.

(** X8.  A [Modify] call that supplies none of the seven keys succeeds and
    changes nothing, except that a participation cap above 1 is brought down
    to 1. *)
Theorem X8_Modify_nothing_supplied this inst_ params :
  supplied_double params "Price" = None ->
  supplied_int params "MinSize" = None ->
  supplied_int params "MaxFloor" = None ->
  supplied_double params "MaxPov" = None ->
  params !! "Aggression" = None ->
  supplied_double params "Randomize" = None ->
  supplied_double params "Tilt" = None ->
  Modify this inst_ params
  = (if Qltb 1 (max_pov_ this) then set_max_pov_ 1 this else this, ""%string).
Proof.
  intros Hprice Hmin Hfloor Hpov Hagg Hrand Htilt.
  assert (E1 : forall t, modify_price params t = t)
    by (intros t; unfold modify_price;
        rewrite GetParam_double_supplied, Hprice; destruct t; reflexivity).
  assert (E2 : forall lot t, modify_min_size lot params t = t)
    by (intros lot t; unfold modify_min_size;
        rewrite GetParam_int_supplied, Hmin; destruct t; reflexivity).
  assert (E3 : forall lot t, modify_max_floor lot params t = t)
    by (intros lot t; unfold modify_max_floor;
        rewrite GetParam_int_supplied, Hfloor; destruct t; reflexivity).
  assert (E4 : modify_max_pov params this
               = if Qltb 1 (max_pov_ this) then set_max_pov_ 1 this else this).
  { unfold modify_max_pov. rewrite GetParam_double_supplied, Hpov. cbv zeta.
    cbn [fst]. destruct (Qltb 1 (max_pov_ this)); [reflexivity |].
    destruct this; reflexivity. }
  assert (E5 : forall t, modify_aggression params t = Some t)
    by (intros t; unfold modify_aggression, GetParam_string; rewrite Hagg; reflexivity).
  assert (E6 : forall t, modify_random params t = t)
    by (intros t; unfold modify_random;
        rewrite GetParam_double_supplied, Hrand; destruct t; reflexivity).
  assert (E7 : forall t, modify_tilt params t = t)
    by (intros t; unfold modify_tilt;
        rewrite GetParam_double_supplied, Htilt; destruct t; reflexivity).
  unfold Modify. cbv zeta. rewrite E1, E2, E3, E4, E5, E6, E7. reflexivity.
Qed.

End Parameters.

(** Case analysis on nested comparisons, innermost first. *)
Ltac cmp_inner :=
  repeat match goal with
  | |- context [Qltb ?a ?b] =>
      lazymatch a with
      | context [Qltb _ _] => fail
      | _ =>
          lazymatch b with
          | context [Qltb _ _] => fail
          | _ =>
              let E := fresh "E" in
              destruct (Qltb a b) eqn:E; [apply Qltb_lt in E | apply Qltb_ge in E]
          end
      end
  end.

Section Lifecycle.

Context {P : Platform}.

(** ** OnStart *)

(** The three ways out of [OnStart] before the first tick, and the fourth
    through it. *)
Lemma OnStart_inv this w params :
  let seconds := fst (GetParam_int params "ValidSeconds" 0) in
  let r := fst (fst (OnStart this w params)) in
  (seconds < 60
   /\ OnStart this w params
      = (r, ([], kRandomGen w), "Too short ValidSeconds, must be >= 60"%string)
   /\ same_config r this
   /\ start_time_ r = start_time_ this /\ end_time_ r = end_time_ this)
  \/ (60 <= seconds
      /\ exists t0,
           same_config t0 this
           /\ start_time_ t0 = GetTime w
           /\ end_time_ t0 = GetTime w + seconds
           /\ initial_volume_ t0
              = MarketData.volume (MarketData.trade (Instrument.md (inst w)))
           /\ r = fst (Modify t0 (inst w) params)
           /\ let err := snd (Modify t0 (inst w) params) in
              let no_size :=
                (min_size_ r <=? 0)
                && (Security.lot_size (SecurityTuple.sec (st_ r)) <=? 0) in
              (err <> ""%string /\ OnStart this w params = (r, ([], kRandomGen w), err))
              \/ (err = ""%string /\ no_size = true
                  /\ OnStart this w params
                     = (r, ([], kRandomGen w),
                        "MinSize required for security without lot size"%string))
              \/ (err = ""%string /\ no_size = false
                  /\ exists w',
                       GetTime w' = GetTime w
                       /\ kRandomGen w' = kRandomGen w
                       /\ OnStart this w params = (r, Timer r w', ""%string))).
Proof.
  intros seconds r. subst r. unfold OnStart. cbv zeta. fold seconds.
  destruct (seconds <? 60) eqn:Es; [apply Z.ltb_lt in Es | apply Z.ltb_ge in Es].
  { left. cbn. repeat split; auto. }
  right. split; [exact Es |].
  match goal with
  | |- context [Modify ?X (inst w) params] =>
      exists X;
      pose proof (Modify_same_request X (inst w) params) as Hreq;
      destruct (Modify X (inst w) params) as [t err] eqn:Em
  end.
  cbn [fst snd] in *.
  destruct Hreq as (Hst & _).
  split; [cbn; repeat split |]. split; [reflexivity |]. split; [reflexivity |].
  split; [reflexivity |].
  destruct (String.eqb_spec err "") as [-> | Hne]; cbn [negb].
  - assert (Hsec : Security.lot_size (SecurityTuple.sec (st_ t))
                   = Security.lot_size
                       (SecurityTuple.sec
                          (fst (GetParam_security params "Security" (st_ this)))))
      by (rewrite Hst; reflexivity).
    cbn [st_ set_st_ set_not_lower_than_last_px_ set_initial_volume_
         set_start_time_ set_end_time_] in *.
    rewrite <- Hsec.
    destruct ((min_size_ t <=? 0) && _) eqn:En; cbn [fst].
    + split; [reflexivity |]. right. left. auto.
    + split; [reflexivity |]. right. right. split; [reflexivity |].
      split; [exact En |].
      destruct (String.eqb _ "Yes"); eexists; (split; [| split; [| reflexivity]]);
        reflexivity.
  - cbn [fst]. split; [reflexivity |]. left. auto.
Qed.

(** What a successful [OnStart] leaves. *)
Lemma OnStart_success this w params :
  snd (OnStart this w params) = ""%string ->
  let r := fst (fst (OnStart this w params)) in
  exists seconds,
    supplied_int params "ValidSeconds" = Some seconds
    /\ 60 <= seconds
    /\ start_time_ r = GetTime w
    /\ end_time_ r = GetTime w + seconds
    /\ initial_volume_ r
       = MarketData.volume (MarketData.trade (Instrument.md (inst w)))
    /\ (0 < min_size_ r \/ 0 < Security.lot_size (SecurityTuple.sec (st_ r)))
    /\ exists w',
         GetTime w' = GetTime w
         /\ kRandomGen w' = kRandomGen w
         /\ snd (fst (OnStart this w params)) = Timer r w'.
Proof.
  intros Hok r.
  destruct (OnStart_inv this w params) as [(_ & E & _) | (Hsec & t0 & _ & Hs & He & Hv & Hr & H)].
  { rewrite E in Hok. discriminate Hok. }
  fold r in Hr, H. cbv zeta in H.
  destruct (Modify_same_request t0 (inst w) params) as (_ & Hv' & Hs' & He' & _).
  rewrite <- Hr in Hv', Hs', He'.
  exists (fst (GetParam_int params "ValidSeconds" 0)).
  assert (Hsup : supplied_int params "ValidSeconds"
                 = Some (fst (GetParam_int params "ValidSeconds" 0))).
  { revert Hsec. rewrite GetParam_int_supplied.
    destruct (supplied_int params "ValidSeconds"); cbn [fst]; [reflexivity | lia]. }
  split; [exact Hsup |]. split; [exact Hsec |].
  split; [congruence |]. split; [congruence |]. split; [congruence |].
  destruct H as [(Herr & E) | [(_ & _ & E) | (_ & Hsize & w' & Ht & Hg & E)]];
    [rewrite E in Hok; cbn [snd] in Hok; congruence
    | rewrite E in Hok; cbn [snd] in Hok; discriminate Hok |].
  split.
  - apply andb_false_iff in Hsize as [H | H]; apply Z.leb_gt in H; auto.
  - exists w'. rewrite E. auto.
Qed.

(** X9.  [OnStart] rejects a window shorter than 60 seconds, a missing
    ValidSeconds included: it returns the window error, runs no tick and
    touches neither the configuration nor the window of the object. *)
Theorem X9_OnStart_window_too_short this w params :
  match supplied_int params "ValidSeconds" with
  | Some seconds => seconds < 60
  | None => True
  end ->
  let r := fst (fst (OnStart this w params)) in
  OnStart this w params
  = (r, ([], kRandomGen w), "Too short ValidSeconds, must be >= 60"%string)
  /\ same_config r this
  /\ start_time_ r = start_time_ this
  /\ end_time_ r = end_time_ this.
Proof.
  intros Hshort r.
  assert (Hlt : fst (GetParam_int params "ValidSeconds" 0) < 60).
  { rewrite GetParam_int_supplied.
    destruct (supplied_int params "ValidSeconds"); cbn [fst]; lia. }
  destruct (OnStart_inv this w params) as [(_ & E & Hc & Hs & He) | (Hge & _)];
    [| lia].
  fold r in E, Hc, Hs, He. auto.
Qed.

(** X10.  A successful [OnStart] was given at least 60 ValidSeconds; it
    leaves a window that starts now and ends that many seconds later, the
    traded volume of the instrument as baseline, and an object with a
    positive min size or a security with a positive lot size. *)
Theorem X10_OnStart_success_window this w params :
  snd (OnStart this w params) = ""%string ->
  let r := fst (fst (OnStart this w params)) in
  exists seconds,
    supplied_int params "ValidSeconds" = Some seconds
    /\ 60 <= seconds
    /\ start_time_ r = GetTime w
    /\ end_time_ r = GetTime w + seconds
    /\ initial_volume_ r
       = MarketData.volume (MarketData.trade (Instrument.md (inst w)))
    /\ (0 < min_size_ r \/ 0 < Security.lot_size (SecurityTuple.sec (st_ r))).
Proof.
  intros Hok r.
  destruct (OnStart_success this w params Hok)
    as (seconds & H1 & H2 & H3 & H4 & H5 & H6 & _).
  exists seconds. repeat split; assumption.
Qed.

(** Every tick either stops or re-arms; what follows the re-arming is order
    action only. *)
Lemma Timer_shape this w :
  (end_time_ this < GetTime w /\ Timer this w = ([Stop], kRandomGen w))
  \/ (GetTime w <= end_time_ this
      /\ exists rest,
           fst (Timer this w) = SetTimeout 1 :: rest
           /\ forall a, In a rest -> is_Place a = true \/ is_Cancel a = true).
Proof.
  unfold Timer. cbv zeta.
  destruct (end_time_ this <? GetTime w) eqn:E;
    [apply Z.ltb_lt in E; left; auto | apply Z.ltb_ge in E; right].
  split; [exact E |].
  destruct (negb _); [exists []; split; [reflexivity | intros a []] |].
  destruct (price_contract this w) as [c |];
    [| exists []; split; [reflexivity | intros a []]].
  destruct (Instrument.active_orders (inst w)) as [| o os] eqn:Eo.
  - destruct (over_participation this w);
      [exists []; split; [reflexivity | intros a []] |].
    destruct (GetLeaves this w) as [leaves gen].
    destruct (Qle_bool leaves 0); [exists []; split; [reflexivity | intros a []] |].
    eexists. split; [reflexivity |].
    intros a Ha. apply place_order_inv in Ha as [q ->]. left. reflexivity.
  - eexists. split; [reflexivity |].
    intros a Ha. apply in_flat_map in Ha as (ord & _ & Ha).
    apply cancel_order_inv in Ha. subst a. right. reflexivity.
Qed.

(** X11.  A successful [OnStart] runs the first tick inside the window: its
    intents begin with the re-arming of the timer for one second, contain
    no [Stop], and place at most one order. *)
Theorem X11_OnStart_arms_timer this w params :
  snd (OnStart this w params) = ""%string ->
  exists rest,
    fst (snd (fst (OnStart this w params))) = SetTimeout 1 :: rest
    /\ ~ In Stop rest
    /\ (places rest <= 1)%nat.
Proof.
  intros Hok.
  destruct (OnStart_success this w params Hok)
    as (seconds & _ & Hsec & Hs & He & _ & _ & w' & Ht & _ & E).
  rewrite E.
  destruct (Timer_shape (fst (fst (OnStart this w params))) w')
    as [(Hlate & _) | (_ & rest & Hrest & Hact)]; [lia |].
  exists rest. split; [exact Hrest |]. split.
  - intros Hin. destruct (Hact Stop Hin) as [H | H]; discriminate H.
  - pose proof (Timer_places (fst (fst (OnStart this w params))) w') as Hone.
    rewrite Hrest in Hone. exact Hone.
Qed.

(** X12.  A failing [OnStart] runs no tick and leaves the random engine
    alone, and its error is one of three: the window error, the aggression
    error of [Modify], or the missing min size.  The window is checked
    first: with a short window the other two are never reported. *)
Theorem X12_OnStart_failure this w params :
  snd (OnStart this w params) <> ""%string ->
  snd (fst (OnStart this w params)) = ([], kRandomGen w)
  /\ (snd (OnStart this w params) = "Too short ValidSeconds, must be >= 60"%string
      /\ fst (GetParam_int params "ValidSeconds" 0) < 60
      \/ 60 <= fst (GetParam_int params "ValidSeconds" 0)
         /\ (snd (OnStart this w params)
             = "Invalid aggression, must be in (Low, Medium, High, Highest)"%string
             \/ snd (OnStart this w params)
                = "MinSize required for security without lot size"%string)).
Proof.
  intros Hfail.
  destruct (OnStart_inv this w params)
    as [(Hlt & E & _) | (Hge & t0 & _ & _ & _ & _ & _ & H)].
  { rewrite E. cbn [fst snd]. auto. }
  cbv zeta in H.
  destruct H as [(Herr & E) | [(_ & _ & E) | (_ & _ & w' & _ & _ & E)]].
  - rewrite E. cbn [fst snd]. split; [reflexivity |]. right. split; [exact Hge |].
    left. apply Modify_error in Herr.
    unfold Modify. cbv zeta. rewrite Herr. reflexivity.
  - rewrite E. cbn [fst snd]. auto.
  - rewrite E in Hfail. cbn in Hfail. congruence.
Qed.

(** X13.  The window of a running instance is at least 60 seconds long, and
    no [Modify] moves it. *)
Theorem X13_running_window inst_ this :
  running inst_ this ->
  60 <= end_time_ this - start_time_ this
  /\ forall params,
       start_time_ (fst (Modify this inst_ params)) = start_time_ this
       /\ end_time_ (fst (Modify this inst_ params)) = end_time_ this.
Proof.
  intros Hrun. split.
  - induction Hrun as [this0 w params this out Hw Hstart | this params this' Hrun IH Hmod].
    + assert (Hok : snd (OnStart this0 w params) = ""%string)
        by (rewrite Hstart; reflexivity).
      destruct (OnStart_success this0 w params Hok)
        as (seconds & _ & Hsec & Hs & He & _).
      rewrite Hstart in Hs, He. cbn [fst] in Hs, He. lia.
    + destruct (Modify_same_request this inst_ params) as (_ & _ & Hs & He & _).
      rewrite Hmod in Hs, He. cbn [fst] in Hs, He. lia.
  - intros params.
    destruct (Modify_same_request this inst_ params) as (_ & _ & Hs & He & _). auto.
Qed.

(** ** Timer *)

(** X14.  A tick past the end of the window stops the algo and does not
    re-arm the timer; every other tick re-arms it for one second, first
    thing, exactly once and without stopping; outside the trade period of
    the security that is all the tick does. *)
Theorem X14_Timer_stops_or_rearms this w :
  (end_time_ this < GetTime w -> Timer this w = ([Stop], kRandomGen w))
  /\ (GetTime w <= end_time_ this ->
      exists rest,
        fst (Timer this w) = SetTimeout 1 :: rest
        /\ ~ In Stop rest
        /\ forall n, ~ In (SetTimeout n) rest)
  /\ (GetTime w <= end_time_ this ->
      IsInTradePeriod w = false ->
      Timer this w = ([SetTimeout 1], kRandomGen w)).
Proof.
  split; [| split].
  - intros Hlate.
    destruct (Timer_shape this w) as [(_ & E) | (Hin & _)]; [exact E | lia].
  - intros Hin.
    destruct (Timer_shape this w) as [(Hlate & _) | (_ & rest & E & Hact)]; [lia |].
    exists rest. split; [exact E |]. split.
    + intros H. destruct (Hact _ H) as [H' | H']; discriminate H'.
    + intros n H. destruct (Hact _ H) as [H' | H']; discriminate H'.
  - intros Hin Hout. unfold Timer. cbv zeta.
    replace (end_time_ this <? GetTime w) with false by (symmetry; apply Z.ltb_ge; lia).
    rewrite Hout. reflexivity.
Qed.

(** A placed order comes out of lines 230-246, run with positive leaves on
    an instrument without working order. *)
Lemma Timer_Place_order this w c' :
  In (Place c') (fst (Timer this w)) ->
  Instrument.active_orders (inst w) = []
  /\ exists c leaves,
       price_contract this w = Some c
       /\ (0 < leaves)%Q
       /\ In (Place c') (place_order this w c leaves).
Proof.
  unfold Timer. cbv zeta.
  destruct (_ <? _); [simpl; intuition discriminate |].
  destruct (negb _); [simpl; intuition discriminate |].
  destruct (price_contract this w) as [c |]; [| simpl; intuition discriminate].
  destruct (Instrument.active_orders (inst w)) as [| o os] eqn:Eo.
  - destruct (over_participation this w); [simpl; intuition discriminate |].
    destruct (GetLeaves this w) as [leaves gen].
    destruct (Qle_bool leaves 0) eqn:El; [simpl; intuition discriminate |].
    apply not_true_iff_false in El. rewrite Qle_bool_iff in El.
    cbn [fst app In]. intros [H | H]; [discriminate |].
    split; [reflexivity |]. exists c, leaves.
    split; [reflexivity |]. split; [lra | exact H].
  - cbn [fst app In]. intros [H | H]; [discriminate |].
    apply in_flat_map in H as (ord & _ & H).
    apply cancel_order_inv in H. discriminate.
Qed.

Lemma Qceiling_pos x : (0 < x)%Q -> (1 <= inject_Z (Qceiling x))%Q.
Proof.
  intros Hx. pose proof (Qle_ceiling x) as Hc.
  assert (H : 0 < Qceiling x).
  { rewrite Zlt_Qlt. change (inject_Z 0) with 0%Q. lra. }
  rewrite <- (Zle_Qle 1). lia.
Qed.

Lemma place_order_bounds this w c leaves c' :
  (0 < leaves)%Q ->
  In (Place c') (place_order this w c leaves) ->
  (0 < Contract.qty c')%Q
  /\ (Contract.qty c' <= SecurityTuple.qty (st_ this) - total_exposure (inst w))%Q
  /\ (0 < max_floor_ this -> (Contract.qty c' <= inject_Z (max_floor_ this))%Q).
Proof.
  intros Hpos. unfold place_order. cbv zeta.
  set (total := (SecurityTuple.qty (st_ this) - total_exposure (inst w))%Q).
  set (lot := if Security.lot_size (Instrument.sec (inst w)) <=? 0
              then Z.max 1 (min_size_ this)
              else Security.lot_size (Instrument.sec (inst w))).
  assert (Hlot : (1 <= inject_Z lot)%Q).
  { rewrite <- (Zle_Qle 1). subst lot.
    destruct (Security.lot_size (Instrument.sec (inst w)) <=? 0) eqn:E;
      [| apply Z.leb_gt in E]; lia. }
  set (max_qty := if _ || _ then total
                  else (inject_Z (Qfloor (total / inject_Z lot)) * inject_Z lot)%Q).
  assert (Hmax : (max_qty <= total)%Q).
  { subst max_qty. destruct (_ || _); [lra |].
    pose proof (Qfloor_le (total / inject_Z lot)) as Hf.
    apply Qle_trans with (total / inject_Z lot * inject_Z lot)%Q.
    - apply Qmult_le_compat_r; [exact Hf | lra].
    - assert (E : (total / inject_Z lot * inject_Z lot == total)%Q) by (field; lra).
      rewrite E. lra. }
  set (would := (inject_Z (Qceiling (leaves / inject_Z lot)) * inject_Z lot)%Q).
  assert (Hwould : (0 < would)%Q).
  { subst would.
    assert (Hc : (1 <= inject_Z (Qceiling (leaves / inject_Z lot)))%Q).
    { apply Qceiling_pos. apply Qlt_shift_div_l; lra. }
    apply Qmult_lt_0_compat; lra. }
  clearbody max_qty would total.
  destruct (Qle_bool max_qty 0) eqn:Em; [intros [] |].
  apply not_true_iff_false in Em. rewrite Qle_bool_iff in Em.
  intros [[= <-] | []]. cbn [Contract.qty].
  destruct (0 <? max_floor_ this) eqn:Ef;
    [apply Z.ltb_lt in Ef | apply Z.ltb_ge in Ef]; cbn [andb].
  - assert (Hfq : (0 < inject_Z (max_floor_ this))%Q)
      by (rewrite <- (Zlt_Qlt 0); exact Ef).
    cmp_inner; (split; [lra |]); (split; [lra |]); intros _; lra.
  - cmp_inner; (split; [lra |]); (split; [lra |]); intros H; lia.
Qed.

(** X15.  Every order a tick places has a positive quantity that does not
    exceed what is left of the request, requested quantity minus total
    exposure, nor a positive max floor; it carries the side, the account and
    the position effect of the request. *)
Theorem X15_placed_order_bounds this w c' :
  In (Place c') (fst (Timer this w)) ->
  (0 < Contract.qty c')%Q
  /\ (Contract.qty c' <= SecurityTuple.qty (st_ this) - total_exposure (inst w))%Q
  /\ (0 < max_floor_ this -> (Contract.qty c' <= inject_Z (max_floor_ this))%Q)
  /\ Contract.side c' = SecurityTuple.side (st_ this)
  /\ Contract.sub_account c' = SecurityTuple.acc (st_ this)
  /\ Contract.position_effect c' = SecurityTuple.position_effect (st_ this).
Proof.
  intros Hin.
  destruct (Timer_Place_order this w c' Hin) as (_ & c & leaves & _ & Hpos & Hp).
  destruct (place_order_bounds this w c leaves c' Hpos Hp) as (H1 & H2 & H3).
  apply place_order_inv in Hp as [q [= ->]].
  cbn [Contract.qty Contract.side Contract.sub_account Contract.position_effect] in *.
  repeat split; assumption.
Qed.

(** X16.  Where odd lots are not allowed and the security has a lot size,
    with min size and max floor multiples of it (as [Modify] stores them),
    every placed quantity is a whole number of lots. *)
Theorem X16_placed_quantity_whole_lots this w c' :
  let lot := Security.lot_size (Instrument.sec (inst w)) in
  Exchange.odd_lot_allowed (Security.exchange (Instrument.sec (inst w))) = false ->
  0 < lot ->
  (lot | min_size_ this) ->
  (lot | max_floor_ this) ->
  In (Place c') (fst (Timer this w)) ->
  exists k, 0 < k /\ Contract.qty c' = inject_Z (k * lot).
Proof.
  intros lot Hodd Hlot [km Hm] [kf Hf] Hin.
  assert (Hpos : (0 < Contract.qty c')%Q).
  { destruct (Timer_Place_order this w c' Hin) as (_ & c & leaves & _ & Hl & Hp).
    apply (place_order_bounds this w c leaves c' Hl Hp). }
  destruct (Timer_Place_order this w c' Hin) as (_ & c & leaves & _ & _ & Hp).
  revert Hpos Hp. unfold place_order. cbv zeta. fold lot. rewrite Hodd, Hm, Hf.
  replace (lot <=? 0) with false by (symmetry; apply Z.leb_gt; lia).
  cbn [orb].
  set (a := Qceiling _). set (f := Qfloor _). clearbody a f.
  assert (Hk : forall a, (0 < inject_Z a * inject_Z lot)%Q ->
                 exists k, 0 < k /\ (inject_Z a * inject_Z lot)%Q = inject_Z (k * lot)).
  { intros z Hz. exists z. split; [| reflexivity].
    assert (H : (0 < inject_Z (z * lot))%Q) by (rewrite inject_Z_mult; exact Hz).
    rewrite <- (Zlt_Qlt 0) in H. nia. }
  assert (Hz : forall a, (0 < inject_Z (a * lot))%Q ->
                 exists k, 0 < k /\ inject_Z (a * lot) = inject_Z (k * lot)).
  { intros z Hz. exists z. split; [| reflexivity].
    rewrite <- (Zlt_Qlt 0) in Hz. nia. }
  destruct (Qle_bool _ 0); [intros _ [] |].
  intros Hpos [Heq | []].
  assert (Hq : Contract.qty c'
               = (let would := (inject_Z a * inject_Z lot)%Q in
                  let would :=
                    if Qltb would (inject_Z (km * lot)) then inject_Z (km * lot)
                    else would in
                  let would :=
                    if (0 <? kf * lot) && Qltb (inject_Z (kf * lot)) would
                    then inject_Z (kf * lot) else would in
                  if Qltb (inject_Z f * inject_Z lot) would
                  then (inject_Z f * inject_Z lot)%Q else would))
    by (injection Heq as <-; reflexivity).
  clear Heq. cbv zeta in Hq. rewrite Hq in *. clear Hq. revert Hpos.
  destruct (0 <? kf * lot); cbn [andb]; cmp_inner; intros Hpos; auto.
Qed.

(** X17.  A priced limit contract has a positive price.  With a limit price
    configured (> 0), a sell is never priced below it, and a buy is never
    priced above it as long as the no-markdown rule is off.  A priced market
    contract keeps the price 0 unless that rule raises it to the last
    price. *)
Theorem X17_priced_contract_bounds this w c :
  price_contract this w = Some c ->
  let last_px := RoundPrice (MarketData.close (MarketData.trade (Instrument.md (inst w)))) in
  match Contract.type c with
  | kLimit =>
      (0 < Contract.price c)%Q
      /\ ((0 < price_ this)%Q ->
          if IsBuy (SecurityTuple.side (st_ this))
          then not_lower_than_last_px_ this = false ->
               (Contract.price c <= price_ this)%Q
          else (price_ this <= Contract.price c)%Q)
  | kMarket =>
      Contract.price c = 0%Q
      \/ (not_lower_than_last_px_ this = true /\ Contract.price c = last_px
          /\ (0 < last_px)%Q)
  end.
Proof.
  unfold price_contract. cbv zeta.
  destruct (select_price _ _ _ _ _) as [c0 |] eqn:Es; [| discriminate].
  intros [= <-].
  rewrite type_no_markdown, type_limit_price.
  destruct (select_price_cases _ _ _ _ _ _ Es) as [[Hty Hpos] | ->].
  - rewrite Hty. unfold no_markdown, limit_price. rewrite Hty. cbn [OrderType_eqb negb andb].
    destruct (IsBuy (SecurityTuple.side (st_ this)));
      destruct (not_lower_than_last_px_ this); cbn [andb orb negb];
      cmp_inner; cbn [Contract.price Contract.set_price andb orb negb] in *;
      cmp_inner; cbn [Contract.price Contract.set_price andb orb negb] in *;
      (split; [lra |]);
      first [ intros Hp Hoff; discriminate Hoff
            | intros Hp Hoff; clear Hoff; lra
            | intros Hp; lra ].
  - cbn [Contract.type Contract.set_type Contract.default].
    unfold no_markdown, limit_price.
    cbn [Contract.type Contract.set_type Contract.default Contract.price
         OrderType_eqb negb andb].
    destruct (not_lower_than_last_px_ this); cbn [andb]; [| left; reflexivity].
    cmp_inner; cbn [Contract.price Contract.set_price]; [right | left]; auto.
Qed.

(** X18.  A tick cancels only orders that are working on the instrument,
    and a tick that cancels places nothing; a tick never places more than
    one order. *)
Theorem X18_Timer_cancels_working_orders this w :
  (forall ord, In (Cancel ord) (fst (Timer this w)) ->
     In ord (Instrument.active_orders (inst w))
     /\ places (fst (Timer this w)) = 0%nat)
  /\ (places (fst (Timer this w)) <= 1)%nat.
Proof.
  split; [| apply Timer_places].
  intros ord Hin.
  assert (Hact : In ord (Instrument.active_orders (inst w))).
  { revert Hin. unfold Timer. cbv zeta.
    destruct (_ <? _); [simpl; intuition discriminate |].
    destruct (negb _); [simpl; intuition discriminate |].
    destruct (price_contract this w) as [c |]; [| simpl; intuition discriminate].
    destruct (Instrument.active_orders (inst w)) as [| o os] eqn:Eo.
    - destruct (over_participation this w); [simpl; intuition discriminate |].
      destruct (GetLeaves this w) as [leaves gen].
      destruct (Qle_bool leaves 0); [simpl; intuition discriminate |].
      cbn [fst app In]. intros [H | H]; [discriminate |].
      apply place_order_inv in H as [q H]. discriminate H.
    - cbn [fst app In]. intros [H | H]; [discriminate |].
      apply in_flat_map in H as (ord' & Hord & H).
      apply cancel_order_inv in H. injection H as ->. exact Hord. }
  split; [exact Hact |].
  apply Timer_outstanding. intros E. rewrite E in Hact. destruct Hact.
Qed.

(** ** GetLeaves *)

(** X19.  At a given time and state of the random engine, the leaves fall by
    exactly what the total exposure rises by: the schedule does not depend
    on the instrument, and the engine advances the same way. *)
Theorem X19_GetLeaves_exposure this w1 w2 :
  GetTime w1 = GetTime w2 ->
  kRandomGen w1 = kRandomGen w2 ->
  (fst (GetLeaves this w1) - fst (GetLeaves this w2)
   == total_exposure (inst w2) - total_exposure (inst w1))%Q
  /\ snd (GetLeaves this w1) = snd (GetLeaves this w2).
Proof.
  intros Ht Hg. unfold GetLeaves. cbv zeta. rewrite Ht, Hg.
  destruct (negb (Qeq_bool (random_ this) 0));
    [destruct (kRandom (kRandomGen w2)) as [u gen] |];
    cbn [fst snd]; (split; [ring | reflexivity]).
Qed.

(** X20.  Without tilt and randomization (tilt exponent 1, randomize 0) the
    schedule is linear: inside the window the leaves never exceed what is
    left of the request and reach it when the window ends, they do not
    decrease with time while the exposure stays, and the random engine is
    not consulted. *)
Theorem X20_GetLeaves_linear_schedule this w :
  (tilt_ this == 1)%Q ->
  (random_ this == 0)%Q ->
  (0 <= SecurityTuple.qty (st_ this))%Q ->
  start_time_ this <= end_time_ this ->
  let left := (SecurityTuple.qty (st_ this) - total_exposure (inst w))%Q in
  snd (GetLeaves this w) = kRandomGen w
  /\ (start_time_ this <= GetTime w <= end_time_ this ->
      (fst (GetLeaves this w) <= left)%Q)
  /\ (GetTime w = end_time_ this -> (fst (GetLeaves this w) == left)%Q)
  /\ (forall w', inst w' = inst w -> GetTime w <= GetTime w' ->
        (fst (GetLeaves this w) <= fst (GetLeaves this w'))%Q).
Proof.
  intros Htilt Hrand Hqty Hwin left.
  assert (E : forall v, GetLeaves this v
                = ((SecurityTuple.qty (st_ this)
                    * time_ratio (start_time_ this) (end_time_ this) (GetTime v)
                    - total_exposure (inst v))%Q, kRandomGen v)).
  { intros v. unfold GetLeaves. cbv zeta.
    apply Qeq_bool_iff in Htilt, Hrand. rewrite Htilt, Hrand. reflexivity. }
  assert (Hden : (0 < inject_Z (end_time_ this - start_time_ this) + 1)%Q).
  { assert (H : (0 <= inject_Z (end_time_ this - start_time_ this))%Q)
      by (rewrite <- (Zle_Qle 0); lia).
    lra. }
  assert (Hmono : forall a b, a <= b ->
            (time_ratio (start_time_ this) (end_time_ this) a
             <= time_ratio (start_time_ this) (end_time_ this) b)%Q).
  { intros a b Hab. unfold time_ratio.
    apply Qmult_le_compat_r; [| apply Qlt_le_weak, Qinv_lt_0_compat, Hden].
    assert (H : (inject_Z (a - start_time_ this) <= inject_Z (b - start_time_ this))%Q)
      by (rewrite <- Zle_Qle; lia).
    lra. }
  assert (Hend : (time_ratio (start_time_ this) (end_time_ this) (end_time_ this) == 1)%Q).
  { unfold time_ratio. field. lra. }
  rewrite !E. cbn [fst snd]. subst left.
  split; [reflexivity |]. split; [| split].
  - intros [_ Hle].
    pose proof (Hmono _ _ Hle) as H. rewrite Hend in H.
    assert (Hm : (SecurityTuple.qty (st_ this)
                  * time_ratio (start_time_ this) (end_time_ this) (GetTime w)
                  <= SecurityTuple.qty (st_ this) * 1)%Q)
      by (rewrite !(Qmult_comm (SecurityTuple.qty (st_ this)));
          apply Qmult_le_compat_r; assumption).
    lra.
  - intros ->. rewrite Hend. ring.
  - intros w' Hinst Hle. rewrite E, Hinst. cbn [fst].
    pose proof (Hmono _ _ Hle) as H.
    assert (Hm : (SecurityTuple.qty (st_ this)
                  * time_ratio (start_time_ this) (end_time_ this) (GetTime w)
                  <= SecurityTuple.qty (st_ this)
                     * time_ratio (start_time_ this) (end_time_ this) (GetTime w'))%Q)
      by (rewrite !(Qmult_comm (SecurityTuple.qty (st_ this)));
          apply Qmult_le_compat_r; assumption).
    lra.
Qed.

(** ** OnConfirmation *)

Lemma places_none out :
  (forall c, ~ In (Place c) out) -> places out = 0%nat.
Proof.
  unfold places. induction out as [| a out IH]; [reflexivity |].
  intros H. cbn [List.filter].
  destruct a as [| n | ord | c]; cbn [is_Place];
    try (apply IH; intros c' Hc; apply (H c'); right; exact Hc).
  destruct (H c). left. reflexivity.
Qed.

(** X21.  [OnConfirmation] stops the algo exactly when the filled quantity
    has reached the requested one, whatever the time; and on an instrument
    in that state, with working orders of non-negative quantity, no tick
    places an order. *)
Theorem X21_OnConfirmation_target_reached this w :
  (OnConfirmation this (inst w) = [Stop] <->
   (SecurityTuple.qty (st_ this) <= Instrument.cum_qty (inst w))%Q)
  /\ (OnConfirmation this (inst w) = [] <->
      (Instrument.cum_qty (inst w) < SecurityTuple.qty (st_ this))%Q)
  /\ (OnConfirmation this (inst w) = [Stop] ->
      (0 <= total_outstanding_qty (inst w))%Q ->
      places (fst (Timer this w)) = 0%nat).
Proof.
  unfold OnConfirmation.
  destruct (Qle_bool _ _) eqn:E;
    [apply Qle_bool_iff in E
    | apply not_true_iff_false in E; rewrite Qle_bool_iff in E].
  - split; [tauto |]. split; [split; [discriminate | lra] |].
    intros _ Hout. apply places_none. intros c' Hin.
    destruct (Timer_Place_order this w c' Hin) as (_ & c & leaves & _ & Hl & Hp).
    destruct (place_order_bounds this w c leaves c' Hl Hp) as (H1 & H2 & _).
    unfold total_exposure in H2. lra.
  - split; [split; [discriminate | lra] |].
    split; [split; [intros _; lra | reflexivity] |]. discriminate.
Qed.

End Lifecycle.

(** ** Worked examples for the further properties *)

(** X4, witness: lot size 100, MinSize 250 and MaxFloor 180: the min size
    becomes 200, the max floor 100, which is below it and so reset to 0. *)
Lemma X4_Modify_lot_multiples_witness :
  let params : ParamMap := <["MinSize" := PInt 250]> (<["MaxFloor" := PInt 180]> ∅) in
  let r := fst (Modify (Sample.started kAggLow) Sample.idle_inst params) in
  min_size_ r = 200 /\ max_floor_ r = 0.
Proof.
  intros params r.
  destruct (X4_Modify_lot_multiples (Sample.started kAggLow) Sample.idle_inst params)
    as [Hmin Hfloor]; [reflexivity |].
  destruct (Hmin 250 eq_refl eq_refl) as (Em & _).
  destruct (Hfloor 180 eq_refl eq_refl) as (_ & _ & _ & Ez).
  split; [exact Em |].
  apply Ez. left. reflexivity.
Defined.

(** X5, witness: Price -1. *)
Lemma X5_Modify_price_not_positive_witness :
  let params : ParamMap := <["Price" := PDouble (-1)]> ∅ in
  let r := fst (Modify (Sample.started kAggLow) Sample.idle_inst params) in
  price_ r = (-1)%Q
  /\ limit_price r (Contract.set_price 10 Contract.default)
     = Contract.set_price 10 Contract.default.
Proof.
  intros params r.
  apply (X5_Modify_price_not_positive (Sample.started kAggLow) Sample.idle_inst params
           (-1)%Q (Contract.set_price 10 Contract.default) eq_refl).
  discriminate.
Defined.

(** X8, witness: a map that only holds a key [Modify] does not read. *)
Lemma X8_Modify_nothing_supplied_witness :
  let params : ParamMap := <["InternalCross" := PString "Yes"]> ∅ in
  Modify (Sample.started kAggHigh) Sample.idle_inst params
  = (Sample.started kAggHigh, ""%string).
Proof.
  intros params.
  exact (X8_Modify_nothing_supplied (Sample.started kAggHigh) Sample.idle_inst params
           eq_refl eq_refl eq_refl eq_refl eq_refl eq_refl eq_refl).
Defined.

(** X9, witness: ValidSeconds 30, and no ValidSeconds at all. *)
Lemma X9_OnStart_window_too_short_witness :
  let short : ParamMap :=
    <["Security" := PSecurity Sample.buy_1000]> (<["ValidSeconds" := PInt 30]> ∅) in
  let none : ParamMap := <["Security" := PSecurity Sample.buy_1000]> ∅ in
  let w := Sample.world Sample.idle_inst 1000 in
  snd (OnStart Sample.fresh w short) = "Too short ValidSeconds, must be >= 60"%string
  /\ snd (OnStart Sample.fresh w none) = "Too short ValidSeconds, must be >= 60"%string.
Proof.
  intros short none w.
  destruct (X9_OnStart_window_too_short Sample.fresh w short) as (E1 & _);
    [vm_compute; reflexivity |].
  destruct (X9_OnStart_window_too_short Sample.fresh w none) as (E2 & _);
    [vm_compute; exact I |].
  rewrite E1, E2. split; reflexivity.
Defined.

(** X10, witness: a start at 1000 for 3600 seconds. *)
Lemma X10_OnStart_success_window_witness :
  let params : ParamMap :=
    <["Security" := PSecurity Sample.buy_1000]> (<["ValidSeconds" := PInt 3600]> ∅) in
  let r := fst (fst (OnStart Sample.fresh (Sample.world Sample.quoted_inst 1000) params)) in
  start_time_ r = 1000 /\ end_time_ r = 4600 /\ initial_volume_ r = 500%Q.
Proof.
  intros params r.
  destruct (X10_OnStart_success_window Sample.fresh
              (Sample.world Sample.quoted_inst 1000) params eq_refl)
    as (seconds & Hsec & _ & Hs & He & Hv & _).
  injection Hsec as <-.
  split; [exact Hs |]. split; [exact He | exact Hv].
Defined.

(** X11, witness: the same start; its first tick re-arms and places. *)
Lemma X11_OnStart_arms_timer_witness :
  let params : ParamMap :=
    <["Security" := PSecurity Sample.buy_1000]> (<["ValidSeconds" := PInt 3600]> ∅) in
  exists rest,
    fst (snd (fst (OnStart Sample.fresh (Sample.world Sample.quoted_inst 1000) params)))
    = SetTimeout 1 :: rest
    /\ (places rest <= 1)%nat.
Proof.
  intros params.
  destruct (X11_OnStart_arms_timer Sample.fresh
              (Sample.world Sample.quoted_inst 1000) params eq_refl)
    as (rest & E & _ & Hone).
  exists rest. split; [exact E | exact Hone].
Defined.

(** X12, witness: a long enough window with an aggression token that is
    none of the four. *)
Lemma X12_OnStart_failure_witness :
  let params : ParamMap :=
    <["Security" := PSecurity Sample.buy_1000]>
      (<["ValidSeconds" := PInt 60]> (<["Aggression" := PString "low"]> ∅)) in
  let w := Sample.world Sample.quoted_inst 1000 in
  snd (OnStart Sample.fresh w params)
  = "Invalid aggression, must be in (Low, Medium, High, Highest)"%string
  /\ snd (fst (OnStart Sample.fresh w params)) = ([], 0%nat).
Proof.
  intros params w.
  assert (E : snd (OnStart Sample.fresh w params)
              = "Invalid aggression, must be in (Low, Medium, High, Highest)"%string)
    by (vm_compute; reflexivity).
  split; [exact E |].
  apply (X12_OnStart_failure Sample.fresh w params).
  rewrite E. discriminate.
Defined.

(** X13, witness: the instance the sample start leaves. *)
Lemma X13_running_window_witness :
  let params : ParamMap :=
    <["Security" := PSecurity Sample.buy_1000]> (<["ValidSeconds" := PInt 60]> ∅) in
  let w := Sample.world Sample.idle_inst 1000 in
  let this := fst (fst (OnStart Sample.fresh w params)) in
  running Sample.idle_inst this /\ end_time_ this - start_time_ this = 60.
Proof.
  intros params w this.
  assert (Hrun : running Sample.idle_inst this).
  { apply running_start with (this0 := Sample.fresh) (w := w) (params := params)
      (out := snd (fst (OnStart Sample.fresh w params))); [reflexivity |].
    vm_compute. reflexivity. }
  split; [exact Hrun |].
  pose proof (proj1 (X13_running_window Sample.idle_inst this Hrun)) as H.
  vm_compute. reflexivity.
Defined.

(** X14, witness: a tick after the window, and one outside the trade
    period. *)
Lemma X14_Timer_stops_or_rearms_witness :
  Timer (Sample.started kAggLow) (Sample.world Sample.quoted_inst 1061) = ([Stop], 0%nat)
  /\ Timer (Sample.started kAggLow) (Sample.closed_world Sample.quoted_inst 1030)
     = ([SetTimeout 1], 0%nat).
Proof.
  split.
  - apply (proj1 (X14_Timer_stops_or_rearms (Sample.started kAggLow)
                    (Sample.world Sample.quoted_inst 1061))).
    cbn. lia.
  - apply (proj2 (proj2 (X14_Timer_stops_or_rearms (Sample.started kAggLow)
                           (Sample.closed_world Sample.quoted_inst 1030))));
      [cbn; lia | reflexivity].
Defined.

(** X15, witness: half-way through the window the schedule asks for 600 and
    the max floor caps the order at 200. *)
Lemma X15_placed_order_bounds_witness :
  let c' := Contract.mk 200 (101 # 10) 7 kBuy kLimit kOpenPosition in
  In (Place c') (fst (Timer (Sample.started kAggMedium) (Sample.world Sample.quoted_inst 1030)))
  /\ Contract.side c' = kBuy.
Proof.
  intros c'.
  assert (Hin : In (Place c')
                  (fst (Timer (Sample.started kAggMedium)
                          (Sample.world Sample.quoted_inst 1030))))
    by (right; left; reflexivity).
  split; [exact Hin |].
  apply (X15_placed_order_bounds _ _ c' Hin).
Defined.

(** X16, witness: the same order is two lots of 100. *)
Lemma X16_placed_quantity_whole_lots_witness :
  exists k, 0 < k /\ (200 : Q) = inject_Z (k * 100).
Proof.
  apply (X16_placed_quantity_whole_lots (Sample.started kAggMedium)
           (Sample.world Sample.quoted_inst 1030)
           (Contract.mk 200 (101 # 10) 7 kBuy kLimit kOpenPosition)).
  - reflexivity.
  - reflexivity.
  - exists 1. reflexivity.
  - exists 2. reflexivity.
  - right. left. reflexivity.
Defined.

(** X17, witness: a buy at Medium with a limit of 10.00 below the mid price
    10.10 is priced at the limit. *)
Lemma X17_priced_contract_bounds_witness :
  let this := set_price_ 10 (Sample.started kAggMedium) in
  let w := Sample.world Sample.quoted_inst 1030 in
  price_contract this w = Some (Contract.set_price 10 Contract.default)
  /\ (0 < 10)%Q.
Proof.
  intros this w.
  assert (E : price_contract this w = Some (Contract.set_price 10 Contract.default))
    by reflexivity.
  split; [exact E |].
  apply (X17_priced_contract_bounds this w _ E).
Defined.

(** X18, witness: the tick on the instrument with the order resting at 9.90
    cancels it and places nothing. *)
Lemma X18_Timer_cancels_working_orders_witness :
  In Sample.resting (Instrument.active_orders Sample.busy_inst)
  /\ places (fst (Timer (Sample.started kAggLow) (Sample.world Sample.busy_inst 1001)))
     = 0%nat.
Proof.
  apply (proj1 (X18_Timer_cancels_working_orders (Sample.started kAggLow)
                  (Sample.world Sample.busy_inst 1001)) Sample.resting).
  right. left. reflexivity.
Defined.

(** X19, witness: 60 filled against nothing filled. *)
Lemma X19_GetLeaves_exposure_witness :
  let this := Sample.started kAggMedium in
  (fst (GetLeaves this (Sample.world Sample.quoted_inst 1030))
   - fst (GetLeaves this (Sample.world Sample.filled_inst 1030)) == 60 - 0)%Q
  /\ snd (GetLeaves this (Sample.world Sample.quoted_inst 1030))
     = snd (GetLeaves this (Sample.world Sample.filled_inst 1030)).
Proof.
  intros this.
  exact (X19_GetLeaves_exposure this (Sample.world Sample.quoted_inst 1030)
           (Sample.world Sample.filled_inst 1030) eq_refl eq_refl).
Defined.

(** X20, witness: at the end of the window the leaves are the whole
    remainder, 1000 - 60. *)
Lemma X20_GetLeaves_linear_schedule_witness :
  let this := Sample.started kAggMedium in
  let w := Sample.world Sample.filled_inst 1060 in
  snd (GetLeaves this w) = 0%nat
  /\ (fst (GetLeaves this w) == 1000 - (60 + 0))%Q.
Proof.
  intros this w.
  destruct (X20_GetLeaves_linear_schedule this w) as (Hgen & _ & Hend & _);
    [reflexivity | reflexivity | discriminate | cbn; lia |].
  split; [exact Hgen | exact (Hend eq_refl)].
Defined.

(** X21, witness: requested 1000, filled 1000, with time left. *)
Lemma X21_OnConfirmation_target_reached_witness :
  let w := Sample.world Sample.done_inst 1030 in
  OnConfirmation (Sample.started kAggHighest) (inst w) = [Stop]
  /\ places (fst (Timer (Sample.started kAggHighest) w)) = 0%nat.
Proof.
  intros w.
  destruct (X21_OnConfirmation_target_reached (Sample.started kAggHighest) w)
    as (_ & _ & Hnone).
  split; [reflexivity |].
  apply Hnone; [reflexivity | discriminate].
Defined.
